(** * Steam game search engine: the catalog cache, the search, the details
      fetcher and the history log of [app.py]

    The development embeds the Python functions of [app.py] as Rocq
    functions over an explicit world (the two JSON files next to the program
    and the remote Steam endpoints) and proves the properties the
    specification states about them.

    Conventions of the embedding.
    - A Python object is a [value]: [None], a bool, an int, a str, a list or
      a dict.  The embedding has no value for a float, nor for a str with a
      character from U+0100 on.
    - A Python [str] is a [string]: a sequence of code points below 256.
    - A Python [dict] is the list of its items in insertion order, each key
      once ([Py.well_formed]); a list with a key twice stands for no Python
      object.  The decoder builds the dict of a JSON object as Python does,
      a later pair replacing the value of an earlier pair with its key.
    - A Python int is a [Z].  The limits of the interpreter (the depth of
      its recursion, the digits of an int it prints or reads, the memory)
      are not part of the embedding.
    - A Python exception is a [Raise] result; [except Exception] catches
      every one of them.
    - Where the program goes on with an object the embedding has no value
      for (it has decoded a JSON text with a float or a wide character),
      the result is [Beyond]: the embedding does not follow the program
      there, and no [try] brings it back.
    - A file is what is at its path (nothing, a directory, bytes) with the
      rights of the process on it; opening it can fail, for reading and for
      writing. *)

From Stdlib Require Import List String Ascii ZArith NArith Lia Bool Arith.
From Stdlib Require Import Decimal DecimalString DecimalZ DecimalPos DecimalFacts.
Import ListNotations.

#[local] Open Scope string_scope.
#[local] Open Scope list_scope.

(** ** Python values *)

#[local] Set Warnings "-register-all".

Inductive value : Type :=
| VNone
| VBool (b : bool)
| VInt (z : Z)
| VStr (s : string)
| VList (l : list value)
| VDict (d : list (string * value)).

Inductive exn : Type :=
| ConnectionError
| Timeout
| HTTPError (status : Z)
| JSONDecodeError
| OSError
| UnicodeDecodeError
| AttributeError
| TypeError
| IndexError
| KeyError.

(** What a computation comes to: a value, an exception, or a point beyond
    the embedding. *)
Inductive Result (A : Type) : Type :=
| Ok (a : A)
| Raise (e : exn)
| Beyond.

Arguments Ok {A} a.
Arguments Raise {A} e.
Arguments Beyond {A}.

Module Py.

(** [bool(v)]: the truth value Python gives an object in [if], [not], [or]. *)
Definition truthy (v : value) : bool :=
  match v with
  | VNone => false
  | VBool b => b
  | VInt z => negb (Z.eqb z 0)
  | VStr s => negb (String.eqb s "")
  | VList l => match l with [] => false | _ :: _ => true end
  | VDict d => match d with [] => false | _ :: _ => true end
  end.

(** [a or b] on values. *)
Definition or_ (a b : value) : value := if truthy a then a else b.

(** Item lookup in a dict: the last binding of the key wins. *)
Fixpoint lookup (k : string) (d : list (string * value)) : option value :=
  match d with
  | [] => None
  | (k', v) :: d' =>
      match lookup k d' with
      | Some x => Some x
      | None => if String.eqb k' k then Some v else None
      end
  end.

(** [d[k] = v]: the value of a key that is there is replaced where it is,
    a new key goes to the end. *)
Fixpoint setitem (k : string) (v : value) (d : list (string * value))
    : list (string * value) :=
  match d with
  | [] => [(k, v)]
  | (k', v') :: d' =>
      if String.eqb k' k then (k', v) :: d' else (k', v') :: setitem k v d'
  end.

(** [dict(pairs)]: the pairs set one after the other. *)
Definition dict (pairs : list (string * value)) : list (string * value) :=
  fold_left (fun d kv => setitem (fst kv) (snd kv) d) pairs [].

(** No key twice. *)
Fixpoint distinct (ks : list string) : bool :=
  match ks with
  | [] => true
  | k :: rest => negb (existsb (String.eqb k) rest) && distinct rest
  end.

(** The value stands for a Python object: no dict in it has a key twice. *)
Fixpoint well_formed (v : value) : bool :=
  match v with
  | VList l => forallb well_formed l
  | VDict d =>
      distinct (map fst d) && forallb (fun kv => well_formed (snd kv)) d
  | _ => true
  end.

(** [obj.get(k, default)]; only a dict has the method. *)
Definition get (obj : value) (k : string) (default : value) : Result value :=
  match obj with
  | VDict d => Ok (match lookup k d with Some v => v | None => default end)
  | _ => Raise AttributeError
  end.

(** [c.lower()] on one code point below 256: A-Z and the upper-case letters
    of the Latin-1 block (U+00C0 to U+00DE, the sign U+00D7 apart). *)
Definition lower_char (c : ascii) : ascii :=
  let n := nat_of_ascii c in
  if ((65 <=? n) && (n <=? 90))%nat then ascii_of_nat (n + 32)
  else if ((192 <=? n) && (n <=? 222) && negb (n =? 215))%nat
       then ascii_of_nat (n + 32)
  else c.

Fixpoint lower (s : string) : string :=
  match s with
  | EmptyString => EmptyString
  | String c s' => String (lower_char c) (lower s')
  end.

(** [obj.lower()]; only a str has the method. *)
Definition lower_method (obj : value) : Result string :=
  match obj with
  | VStr s => Ok (lower s)
  | _ => Raise AttributeError
  end.

Fixpoint prefix (p s : string) : bool :=
  match p, s with
  | EmptyString, _ => true
  | String a p', String b s' => Ascii.eqb a b && prefix p' s'
  | String _ _, EmptyString => false
  end.

(** [q in s] on two strs: [q] occurs in [s] as a contiguous substring. *)
Fixpoint contains (q s : string) : bool :=
  prefix q s
  || match s with
     | EmptyString => false
     | String _ s' => contains q s'
     end.

(** White space for [str.strip()], on code points below 256. *)
Definition isspace (c : ascii) : bool :=
  let n := nat_of_ascii c in
  (((9 <=? n) && (n <=? 13)) || ((28 <=? n) && (n <=? 32))
   || (n =? 133) || (n =? 160))%nat.

Fixpoint lstrip (s : string) : string :=
  match s with
  | EmptyString => EmptyString
  | String c s' => if isspace c then lstrip s' else s
  end.

Fixpoint rstrip (s : string) : string :=
  match s with
  | EmptyString => EmptyString
  | String c s' =>
      match rstrip s' with
      | EmptyString => if isspace c then EmptyString else String c EmptyString
      | t => String c t
      end
  end.

Definition strip (s : string) : string := rstrip (lstrip s).

(** The keys of a dict, each once, in the order of first insertion. *)
Fixpoint keys (seen : list string) (d : list (string * value)) : list string :=
  match d with
  | [] => []
  | (k, _) :: d' =>
      if existsb (String.eqb k) seen then keys seen d'
      else k :: keys (k :: seen) d'
  end.

Fixpoint chars (s : string) : list value :=
  match s with
  | EmptyString => []
  | String c s' => VStr (String c EmptyString) :: chars s'
  end.

(** [for x in obj]: the elements the loop visits. *)
Definition iter (obj : value) : Result (list value) :=
  match obj with
  | VList l => Ok l
  | VDict d => Ok (map VStr (keys [] d))
  | VStr s => Ok (chars s)
  | _ => Raise TypeError
  end.

(** [obj[0]]. *)
Definition item0 (obj : value) : Result value :=
  match obj with
  | VList l => match l with x :: _ => Ok x | [] => Raise IndexError end
  | VStr s =>
      match s with
      | String c _ => Ok (VStr (String c EmptyString))
      | EmptyString => Raise IndexError
      end
  | VDict _ => Raise KeyError
  | _ => Raise TypeError
  end.

Fixpoint string_take (n : nat) (s : string) : string :=
  match n, s with
  | S n', String c s' => String c (string_take n' s')
  | _, _ => EmptyString
  end.

(** [obj[:n]] for a literal [n >= 0].  On a dict the exception depends on
    the version of the interpreter (a slice is a key it can hash, or not). *)
Definition slice_to (n : nat) (obj : value) : Result value :=
  match obj with
  | VList l => Ok (VList (firstn n l))
  | VStr s => Ok (VStr (string_take n s))
  | VDict _ => Beyond
  | _ => Raise TypeError
  end.

(** [str(z)] on an int. *)
Definition str_int (z : Z) : string := NilZero.string_of_int (Z.to_int z).

End Py.

(** ** The [json] module: [json.dump] and [json.load]

    The text of a file is a [string]; the encoder and the decoder work on
    its list of characters. *)

Module Json.

#[local] Open Scope char_scope.

Definition dquote : ascii := "034".
Definition backslash : ascii := "092".
Definition LF : ascii := "010".
Definition CR : ascii := "013".
Definition TAB : ascii := "009".
Definition BS : ascii := "008".
Definition FF : ascii := "012".

Definition chars_of (s : string) : list ascii := list_ascii_of_string s.

(** *** Encoder *)

Definition hex_digit (n : nat) : ascii :=
  if (n <? 10)%nat then ascii_of_nat (48 + n) else ascii_of_nat (87 + n).

(** The [\uXXXX] escape of a code point below 256, lower-case digits. *)
Definition escape_u (c : ascii) : list ascii :=
  let n := nat_of_ascii c in
  [backslash; "u"; "0"; "0"; hex_digit (n / 16); hex_digit (n mod 16)].

(** One character of a string literal.  With [ensure_ascii] everything
    outside the printable ASCII range from space to tilde is escaped;
    without it only the quote, the backslash and the control characters. *)
Definition escape_char (ensure_ascii : bool) (c : ascii) : list ascii :=
  if Ascii.eqb c dquote then [backslash; dquote]
  else if Ascii.eqb c backslash then [backslash; backslash]
  else if Ascii.eqb c LF then [backslash; "n"]
  else if Ascii.eqb c CR then [backslash; "r"]
  else if Ascii.eqb c TAB then [backslash; "t"]
  else if Ascii.eqb c BS then [backslash; "b"]
  else if Ascii.eqb c FF then [backslash; "f"]
  else if (nat_of_ascii c <? 32)%nat then escape_u c
  else if ensure_ascii && (126 <? nat_of_ascii c)%nat then escape_u c
  else [c].

Definition encode_string (ensure_ascii : bool) (s : string) : list ascii :=
  dquote :: flat_map (escape_char ensure_ascii) (chars_of s) ++ [dquote].

Definition encode_int (z : Z) : list ascii := chars_of (Py.str_int z).

Section Encoder.

(** The keyword arguments of [json.dump] the program uses. *)
Variable ensure_ascii : bool.
Variable indent : option nat.

Definition newline_indent (level : nat) : list ascii :=
  match indent with
  | None => []
  | Some n => LF :: repeat " " (n * level)
  end.

Definition item_separator : list ascii :=
  match indent with
  | None => [","; " "]
  | Some _ => [","]
  end.

Definition key_separator : list ascii := [":"; " "].

(** A container: its items between the brackets, each on its own line
    when an indent is given. *)
Definition bracket (opening closing : ascii) (level : nat)
    (items : list (list ascii)) : list ascii :=
  match items with
  | [] => [opening; closing]
  | i :: rest =>
      opening :: newline_indent (S level) ++ i
        ++ flat_map (fun j => item_separator ++ newline_indent (S level) ++ j) rest
        ++ newline_indent level ++ [closing]
  end.

Fixpoint encode (level : nat) (v : value) : list ascii :=
  match v with
  | VNone => chars_of "null"
  | VBool true => chars_of "true"
  | VBool false => chars_of "false"
  | VInt z => encode_int z
  | VStr s => encode_string ensure_ascii s
  | VList l => bracket "[" "]" level (map (encode (S level)) l)
  | VDict d =>
      bracket "{" "}" level
        (map (fun kv => encode_string ensure_ascii (fst kv)
                          ++ key_separator ++ encode (S level) (snd kv)) d)
  end.

End Encoder.

(** [json.dumps(v, ensure_ascii=..., indent=...)]. *)
Definition dumps (ensure_ascii : bool) (indent : option nat) (v : value) : string :=
  string_of_list_ascii (encode ensure_ascii indent 0 v).

(** *** Decoder *)

Definition is_ws (c : ascii) : bool :=
  Ascii.eqb c " " || Ascii.eqb c TAB || Ascii.eqb c LF || Ascii.eqb c CR.

Fixpoint skip_ws (s : list ascii) : list ascii :=
  match s with
  | c :: r => if is_ws c then skip_ws r else s
  | [] => []
  end.

Definition hex_val (c : ascii) : option nat :=
  let n := nat_of_ascii c in
  if ((48 <=? n) && (n <=? 57))%nat then Some (n - 48)
  else if ((97 <=? n) && (n <=? 102))%nat then Some (n - 87)
  else if ((65 <=? n) && (n <=? 70))%nat then Some (n - 55)
  else None.

(** The character a one-letter escape stands for. *)
Definition unescape (e : ascii) : option ascii :=
  if Ascii.eqb e dquote then Some dquote
  else if Ascii.eqb e backslash then Some backslash
  else if Ascii.eqb e "/" then Some "/"
  else if Ascii.eqb e "b" then Some BS
  else if Ascii.eqb e "f" then Some FF
  else if Ascii.eqb e "n" then Some LF
  else if Ascii.eqb e "r" then Some CR
  else if Ascii.eqb e "t" then Some TAB
  else None.

(** What scanning a text for a piece of JSON comes to: the piece and the
    text after it; [Bad], where [json] raises its decode error; [Far],
    where the text goes on with a float or with the escape of a character
    from U+0100 on, for which the embedding has no value. *)
Inductive Scan (A : Type) : Type :=
| Got (a : A) (rest : list ascii)
| Bad
| Far.

Arguments Got {A} a rest.
Arguments Bad {A}.
Arguments Far {A}.

(** The body of a string literal, after its opening quote.  A raw control
    character is an error, and so is a [\u] without four hexadecimal
    digits. *)
Fixpoint scan_string (s : list ascii) : Scan string :=
  match s with
  | [] => Bad
  | c :: r =>
      if Ascii.eqb c dquote then Got EmptyString r
      else if Ascii.eqb c backslash then
        match r with
        | [] => Bad
        | e :: r1 =>
            if Ascii.eqb e "u" then
              match r1 with
              | h1 :: h2 :: h3 :: h4 :: r2 =>
                  match hex_val h1, hex_val h2, hex_val h3, hex_val h4 with
                  | Some a1, Some a2, Some a3, Some a4 =>
                      match a1, a2 with
                      | O, O =>
                          match scan_string r2 with
                          | Got t r3 => Got (String (ascii_of_nat (16 * a3 + a4)) t) r3
                          | Bad => Bad
                          | Far => Far
                          end
                      | _, _ => Far
                      end
                  | _, _, _, _ => Bad
                  end
              | _ => Bad
              end
            else
              match unescape e with
              | Some x =>
                  match scan_string r1 with
                  | Got t r2 => Got (String x t) r2
                  | Bad => Bad
                  | Far => Far
                  end
              | None => Bad
              end
        end
      else if (nat_of_ascii c <? 32)%nat then Bad
      else
        match scan_string r with
        | Got t r1 => Got (String c t) r1
        | Bad => Bad
        | Far => Far
        end
  end.

Definition digit_of (c : ascii) : option (uint -> uint) :=
  if Ascii.eqb c "0" then Some D0
  else if Ascii.eqb c "1" then Some D1
  else if Ascii.eqb c "2" then Some D2
  else if Ascii.eqb c "3" then Some D3
  else if Ascii.eqb c "4" then Some D4
  else if Ascii.eqb c "5" then Some D5
  else if Ascii.eqb c "6" then Some D6
  else if Ascii.eqb c "7" then Some D7
  else if Ascii.eqb c "8" then Some D8
  else if Ascii.eqb c "9" then Some D9
  else None.

Definition is_digit (c : ascii) : bool :=
  match digit_of c with Some _ => true | None => false end.

(** The longest run of decimal digits at the head of the text. *)
Fixpoint scan_digits (s : list ascii) : uint * list ascii :=
  match s with
  | [] => (Nil, [])
  | c :: r =>
      match digit_of c with
      | Some d => let (u, r') := scan_digits r in (d u, r')
      | None => (Nil, s)
      end
  end.

(** The integer part of a number: a zero, or a non-zero digit and the
    digits after it. *)
Definition scan_natural (s : list ascii) : option (uint * list ascii) :=
  match s with
  | [] => None
  | c :: r =>
      if Ascii.eqb c "0" then Some (D0 Nil, r)
      else match digit_of c with
           | Some _ => Some (scan_digits s)
           | None => None
           end
  end.

Fixpoint expect (word s : list ascii) : option (list ascii) :=
  match word, s with
  | [], _ => Some s
  | w :: word', c :: r => if Ascii.eqb w c then expect word' r else None
  | _ :: _, [] => None
  end.

(** The text goes on with a fraction (a point and a digit) or an exponent
    (an [e], a sign or none, and a digit): the number is a float. *)
Definition float_tail (r : list ascii) : bool :=
  match r with
  | c :: d :: r' =>
      (Ascii.eqb c "." && is_digit d)
      || ((Ascii.eqb c "e" || Ascii.eqb c "E")
          && (is_digit d
              || ((Ascii.eqb d "+" || Ascii.eqb d "-")
                  && match r' with
                     | x :: _ => is_digit x
                     | [] => false
                     end)))
  | _ => false
  end.

(** The end of a number literal: an int, unless the text makes it a float. *)
Definition finish_number (z : Z) (r : list ascii) : Scan value :=
  if float_tail r then Far else Got (VInt z) r.

(** A number literal; [-Infinity] is a float too. *)
Definition scan_number (s : list ascii) : Scan value :=
  match s with
  | [] => Bad
  | c :: r =>
      if Ascii.eqb c "-" then
        match scan_natural r with
        | Some (u, r') => finish_number (Z.of_int (Neg u)) r'
        | None =>
            match expect (chars_of "Infinity") r with
            | Some _ => Far
            | None => Bad
            end
        end
      else
        match scan_natural s with
        | Some (u, r') => finish_number (Z.of_int (Pos u)) r'
        | None => Bad
        end
  end.

(** The recursive descent of the decoder.  [fuel] bounds its depth; the
    text is longer than it is deep, and a scan that runs out of fuel gives
    no verdict. *)
Fixpoint scan_value (fuel : nat) (s : list ascii) : Scan value :=
  match fuel with
  | O => Far
  | S fuel' =>
      match s with
      | [] => Bad
      | c :: r =>
          if Ascii.eqb c dquote then
            match scan_string r with
            | Got t r' => Got (VStr t) r'
            | Bad => Bad
            | Far => Far
            end
          else if Ascii.eqb c "{" then
            match expect ["}"] (skip_ws r) with
            | Some r' => Got (VDict []) r'
            | None =>
                match scan_members fuel' (skip_ws r) with
                | Got pairs r' => Got (VDict (Py.dict pairs)) r'
                | Bad => Bad
                | Far => Far
                end
            end
          else if Ascii.eqb c "[" then
            match expect ["]"] (skip_ws r) with
            | Some r' => Got (VList []) r'
            | None =>
                match scan_elements fuel' (skip_ws r) with
                | Got l r' => Got (VList l) r'
                | Bad => Bad
                | Far => Far
                end
            end
          else if Ascii.eqb c "n" then
            match expect (chars_of "ull") r with
            | Some r' => Got VNone r'
            | None => Bad
            end
          else if Ascii.eqb c "t" then
            match expect (chars_of "rue") r with
            | Some r' => Got (VBool true) r'
            | None => Bad
            end
          else if Ascii.eqb c "f" then
            match expect (chars_of "alse") r with
            | Some r' => Got (VBool false) r'
            | None => Bad
            end
          else if Ascii.eqb c "N" then
            match expect (chars_of "aN") r with
            | Some _ => Far
            | None => Bad
            end
          else if Ascii.eqb c "I" then
            match expect (chars_of "nfinity") r with
            | Some _ => Far
            | None => Bad
            end
          else scan_number s
      end
  end

with scan_elements (fuel : nat) (s : list ascii) : Scan (list value) :=
  match fuel with
  | O => Far
  | S fuel' =>
      match scan_value fuel' s with
      | Got v r =>
          match skip_ws r with
          | c :: r' =>
              if Ascii.eqb c "," then
                match scan_elements fuel' (skip_ws r') with
                | Got l r2 => Got (v :: l) r2
                | Bad => Bad
                | Far => Far
                end
              else if Ascii.eqb c "]" then Got [v] r'
              else Bad
          | [] => Bad
          end
      | Bad => Bad
      | Far => Far
      end
  end

with scan_members (fuel : nat) (s : list ascii) : Scan (list (string * value)) :=
  match fuel with
  | O => Far
  | S fuel' =>
      match expect [dquote] s with
      | Some r =>
          match scan_string r with
          | Got k r1 =>
              match expect [":"] (skip_ws r1) with
              | Some r2 =>
                  match scan_value fuel' (skip_ws r2) with
                  | Got v r3 =>
                      match skip_ws r3 with
                      | c :: r4 =>
                          if Ascii.eqb c "," then
                            match scan_members fuel' (skip_ws r4) with
                            | Got d r5 => Got ((k, v) :: d) r5
                            | Bad => Bad
                            | Far => Far
                            end
                          else if Ascii.eqb c "}" then Got [(k, v)] r4
                          else Bad
                      | [] => Bad
                      end
                  | Bad => Bad
                  | Far => Far
                  end
              | None => Bad
              end
          | Bad => Bad
          | Far => Far
          end
      | None => Bad
      end
  end.

(** What [json.loads(text)] comes to: the object decoded; the decode error;
    or an object the embedding has no value for. *)
Inductive Decoded : Type :=
| Parsed (v : value)
| NotJson
| Foreign.

(** [json.loads(text)]: one value, white space around it, nothing after. *)
Definition loads (text : string) : Decoded :=
  let s := chars_of text in
  match scan_value (S (List.length s)) (skip_ws s) with
  | Got v r =>
      match skip_ws r with
      | [] => Parsed v
      | _ :: _ => NotJson
      end
  | Bad => NotJson
  | Far => Foreign
  end.

(** *** Notions for the round trip *)

(** A character that cannot continue a number literal. *)
Definition number_stop (c : ascii) : bool :=
  negb (is_digit c)
  && negb (Ascii.eqb c "." || Ascii.eqb c "e" || Ascii.eqb c "E").

(** A text that ends the number before it. *)
Definition delimited (rest : list ascii) : Prop :=
  match rest with
  | [] => True
  | c :: _ => number_stop c = true
  end.

(** The characters an encoded value can start with. *)
Definition starts_value (c : ascii) : bool :=
  Ascii.eqb c dquote || Ascii.eqb c "{" || Ascii.eqb c "[" || Ascii.eqb c "n"
  || Ascii.eqb c "t" || Ascii.eqb c "f" || Ascii.eqb c "-" || is_digit c.

(** Fuel that suffices to decode the encoding of a value. *)
Fixpoint cost (v : value) : nat :=
  match v with
  | VList l => S (list_sum (map (fun x => S (cost x)) l))
  | VDict d => S (list_sum (map (fun kv => S (cost (snd kv))) d))
  | _ => 1
  end.

Section Texts.

Variable ensure_ascii : bool.
Variable indent : option nat.

(** The text of one item of a dict. *)
Definition member_text (level : nat) (kv : string * value) : list ascii :=
  encode_string ensure_ascii (fst kv)
    ++ key_separator ++ encode ensure_ascii indent level (snd kv).

(** The text after the first item of a container: the other items, each
    after a separator, then white space, the closing bracket and the rest. *)
Definition items_text (level : nat) (ws : list ascii) (closing : ascii)
    (items : list (list ascii)) (rest : list ascii) : list ascii :=
  flat_map (fun j => item_separator indent ++ newline_indent indent level ++ j) items
    ++ ws ++ closing :: rest.

(** Decoding the encoding of [v] gives [v] back, whatever the level, the
    text after it and the fuel at hand. *)
Definition decodes (v : value) : Prop :=
  forall level rest fuel,
    delimited rest -> cost v <= fuel ->
    scan_value fuel (encode ensure_ascii indent level v ++ rest) = Got v rest.

End Texts.

End Json.

(** ** The world of the program: two files and the remote endpoints *)

Inductive Path : Type :=
| APPS_CACHE
| HISTORY_FILE.

(** What is at a path: nothing; a directory; a regular file with its
    bytes, a text when they are UTF-8 and [None] when they are not. *)
Inductive Node : Type :=
| Missing
| Directory
| Regular (text : option string).

(** A path of the program: what is there, and the rights of the process on
    it.  For a path with nothing at it, [writable] says whether the process
    may create the file. *)
Record File : Type := {
  node : Node;
  readable : bool;
  writable : bool
}.

(** No file yet, in a directory the process may write to. *)
Definition NoFile : File :=
  {| node := Missing; readable := true; writable := true |}.

(** A text file the process may read and write. *)
Definition Text (s : string) : File :=
  {| node := Regular (Some s); readable := true; writable := true |}.

(** A path the process cannot open, for reading or for writing: a
    directory. *)
Definition Folder : File :=
  {| node := Directory; readable := true; writable := true |}.

(** A file whose bytes are not UTF-8. *)
Definition Binary : File :=
  {| node := Regular None; readable := true; writable := true |}.

(** A text file the process may write and not read. *)
Definition WriteOnly (s : string) : File :=
  {| node := Regular (Some s); readable := false; writable := true |}.

(** [open(p, "r", encoding="utf-8")] and [f.read()]. *)
Definition read_file (f : File) : Result string :=
  match node f with
  | Missing | Directory => Raise OSError
  | Regular bytes =>
      if readable f then
        match bytes with
        | Some s => Ok s
        | None => Raise UnicodeDecodeError
        end
      else Raise OSError
  end.

(** [open(p, "w", encoding="utf-8")] and [f.write(text)]: the file is
    created when it is not there, and its bytes are replaced when it is; its
    rights stay as they are. *)
Definition write_file (text : string) (f : File) : Result File :=
  match node f with
  | Directory => Raise OSError
  | Missing =>
      if writable f then Ok (Text text) else Raise OSError
  | Regular _ =>
      if writable f
      then Ok {| node := Regular (Some text);
                 readable := readable f; writable := true |}
      else Raise OSError
  end.

Record Response : Type := {
  status_code : Z;
  body : string
}.

(** What one [requests.get] call comes to: the exception it raises
    (connection error, timeout) or a response. *)
Inductive Outcome : Type :=
| Failure (e : exn)
| Reply (r : Response).

Record World : Type := {
  apps_cache : File;
  search_history : File;
  remote : string -> list (string * value) -> Outcome
}.

Definition file_at (p : Path) (w : World) : File :=
  match p with
  | APPS_CACHE => apps_cache w
  | HISTORY_FILE => search_history w
  end.

Definition set_file (p : Path) (f : File) (w : World) : World :=
  match p with
  | APPS_CACHE =>
      {| apps_cache := f; search_history := search_history w; remote := remote w |}
  | HISTORY_FILE =>
      {| apps_cache := apps_cache w; search_history := f; remote := remote w |}
  end.

(** ** Computations: state of the world and exceptions *)

Definition M (A : Type) : Type := World -> Result A * World.

Definition ret {A} (a : A) : M A := fun w => (Ok a, w).

Definition raise {A} (e : exn) : M A := fun w => (Raise e, w).

Definition bind {A B} (c : M A) (k : A -> M B) : M B :=
  fun w =>
    match c w with
    | (Ok a, w') => k a w'
    | (Raise e, w') => (Raise e, w')
    | (Beyond, w') => (Beyond, w')
    end.

(** [try: body except Exception as e: handler]. *)
Definition try_except {A} (body : M A) (handler : exn -> M A) : M A :=
  fun w =>
    match body w with
    | (Ok a, w') => (Ok a, w')
    | (Raise e, w') => handler e w'
    | (Beyond, w') => (Beyond, w')
    end.

Definition lift {A} (r : Result A) : M A := fun w => (r, w).

Declare Scope py_scope.
Delimit Scope py_scope with py.

Notation "x <- c ;; k" := (bind c (fun x => k))
  (at level 61, c at next level, right associativity) : py_scope.
Notation "c ;;; k" := (bind c (fun _ => k))
  (at level 61, right associativity) : py_scope.

#[local] Open Scope py_scope.

(** [os.path.exists(p)]. *)
Definition path_exists (p : Path) : M bool :=
  fun w => (Ok (match node (file_at p w) with Missing => false | _ => true end), w).

(** [with open(p, "r", encoding="utf-8") as f: ... f.read()]. *)
Definition open_read (p : Path) : M string :=
  fun w => (read_file (file_at p w), w).

(** [json.load(f)] on the text read. *)
Definition json_load (text : string) : M value :=
  fun w =>
    match Json.loads text with
    | Json.Parsed v => (Ok v, w)
    | Json.NotJson => (Raise JSONDecodeError, w)
    | Json.Foreign => (Beyond, w)
    end.

(** [with open(p, "w", encoding="utf-8") as f: json.dump(data, f, ...)]:
    the file is replaced by the encoded text, when it can be opened. *)
Definition open_write_dump (p : Path) (ensure_ascii : bool) (indent : option nat)
    (data : value) : M unit :=
  fun w =>
    match write_file (Json.dumps ensure_ascii indent data) (file_at p w) with
    | Ok f => (Ok tt, set_file p f w)
    | Raise e => (Raise e, w)
    | Beyond => (Beyond, w)
    end.

(** [requests.get(url, params=params, timeout=...)]. *)
Definition requests_get (url : string) (params : list (string * value)) : M Response :=
  fun w =>
    match remote w url params with
    | Failure e => (Raise e, w)
    | Reply r => (Ok r, w)
    end.

(** [r.raise_for_status()]. *)
Definition raise_for_status (r : Response) : M unit :=
  if ((400 <=? status_code r) && (status_code r <? 600))%Z
  then raise (HTTPError (status_code r))
  else ret tt.

(** [r.json()]. *)
Definition response_json (r : Response) : M value := json_load (body r).

(** ** The program *)

Definition STEAM_APP_LIST_URL : string :=
  "https://api.steampowered.com/ISteamApps/GetAppList/v2/".

Definition STEAM_APP_DETAILS_URL : string :=
  "https://store.steampowered.com/api/appdetails".

Definition load_apps_cache : M value :=
  ex <- path_exists APPS_CACHE ;;
  if ex then
    try_except (text <- open_read APPS_CACHE ;; json_load text)
               (fun _ => ret VNone)
  else ret VNone.

Definition save_apps_cache (data : value) : M unit :=
  open_write_dump APPS_CACHE true None data.

Definition fetch_and_cache_apps : M value :=
  r <- requests_get STEAM_APP_LIST_URL [] ;;
  raise_for_status r ;;;
  j <- response_json r ;;
  applist <- lift (Py.get j "applist" (VDict [])) ;;
  data <- lift (Py.get applist "apps" (VList [])) ;;
  save_apps_cache data ;;;
  ret data.

Definition get_all_apps : M value :=
  apps <- load_apps_cache ;;
  match apps with
  | VNone => fetch_and_cache_apps
  | _ => ret apps
  end.

(** The [for app in apps] loop of [search_apps], with [matches] so far. *)
Fixpoint search_loop (q : string) (limit : Z) (apps matches : list value)
    : Result (list value) :=
  match apps with
  | [] => Ok matches
  | app :: rest =>
      match Py.get app "name" (VStr "") with
      | Raise e => Raise e
      | Beyond => Beyond
      | Ok name =>
          match Py.lower_method name with
          | Raise e => Raise e
          | Beyond => Beyond
          | Ok lname =>
              if Py.contains q lname then
                let matches' := matches ++ [app] in
                if (Z.of_nat (List.length matches') >=? limit)%Z then Ok matches'
                else search_loop q limit rest matches'
              else search_loop q limit rest matches
          end
      end
  end.

Definition search_apps (query : string) (limit : Z) : M value :=
  let q := Py.lower query in
  apps <- get_all_apps ;;
  items <- lift (Py.iter apps) ;;
  matches <- lift (search_loop q limit items []) ;;
  ret (VList matches).

(** The expression for the [price] of the result. *)
Definition price_field (info : value) : M value :=
  block <- lift (Py.get info "price_overview" VNone) ;;
  if Py.truthy block then
    overview <- lift (Py.get info "price_overview" (VDict [])) ;;
    lift (Py.get overview "final_formatted" VNone)
  else
    free <- lift (Py.get info "is_free" VNone) ;;
    ret (if Py.truthy free then VStr "Free" else VStr "N/A").

(** The expression for the [rating] of the result. *)
Definition rating_field (info : value) : M value :=
  metacritic <- lift (Py.get info "metacritic" (VDict [])) ;;
  lift (Py.get metacritic "score" (VStr "N/A")).

(** The expression for the [header_image] of the result. *)
Definition header_image_field (info : value) : M value :=
  header <- lift (Py.get info "header_image" VNone) ;;
  if Py.truthy header then ret header else
  screenshots <- lift (Py.get info "screenshots" (VList [VDict []])) ;;
  first <- lift (Py.item0 screenshots) ;;
  path_full <- lift (Py.get first "path_full" VNone) ;;
  ret (Py.or_ path_full (VStr "")).

(** The dict bound to [result], its values computed in the order written. *)
Definition details_result (appid : Z) (info : value) : M value :=
  name <- lift (Py.get info "name" (VStr "Unknown")) ;;
  description <-
    lift (Py.get info "short_description" (VStr "No description available.")) ;;
  is_free <- lift (Py.get info "is_free" (VBool false)) ;;
  price <- price_field info ;;
  rating <- rating_field info ;;
  header_image <- header_image_field info ;;
  ret (VDict [("appid", VInt appid);
              ("name", name);
              ("description", description);
              ("is_free", is_free);
              ("price", price);
              ("rating", rating);
              ("header_image", header_image);
              ("steam_url",
               VStr ("https://store.steampowered.com/app/" ++ Py.str_int appid))]).

(** The [params] of the details request. *)
Definition details_params (appid : Z) : list (string * value) :=
  [("appids", VInt appid); ("cc", VStr "us"); ("l", VStr "en")].

Definition get_app_details (appid : Z) : M value :=
  let params := details_params appid in
  r <- requests_get STEAM_APP_DETAILS_URL params ;;
  if negb (status_code r =? 200)%Z then ret VNone else
  j <- response_json r ;;
  data <- lift (Py.get j (Py.str_int appid) (VDict [])) ;;
  success <- lift (Py.get data "success" VNone) ;;
  if negb (Py.truthy success) then ret VNone else
  info <- lift (Py.get data "data" (VDict [])) ;;
  details_result appid info.

(** [history.insert(0, entry)]; only a list has the method. *)
Definition insert0 (history entry : value) : Result value :=
  match history with
  | VList l => Ok (VList (entry :: l))
  | _ => Raise AttributeError
  end.

Definition append_history (entry : value) : M unit :=
  ex <- path_exists HISTORY_FILE ;;
  history <-
    (if ex then
       try_except (text <- open_read HISTORY_FILE ;; json_load text)
                  (fun _ => ret (VList []))
     else ret (VList [])) ;;
  history <- lift (insert0 history entry) ;;
  history <- lift (Py.slice_to 100 history) ;;
  open_write_dump HISTORY_FILE false (Some 2%nat) history.

Definition load_history : M value :=
  ex <- path_exists HISTORY_FILE ;;
  if ex then
    try_except (text <- open_read HISTORY_FILE ;; json_load text)
               (fun _ => ret (VList []))
  else ret (VList []).

(** ** The routes *)

Inductive Method : Type :=
| GET
| POST.

(** What a route reads from the request and the clock: the method, the form
    field [game_name] if sent, and [datetime.utcnow().isoformat()]. *)
Record Request : Type := {
  method : Method;
  game_name : option string;
  utcnow : string
}.

(** The text of an error shown to the user: a literal, or [str(e)]. *)
Inductive ErrorText : Type :=
| Message (s : string)
| StrOf (e : exn).

(** What a route returns: a rendered template with its arguments, or a
    plain text with a status. *)
Inductive Page : Type :=
| IndexHtml (results : value) (query : string) (error : option ErrorText)
    (history : value)
| DetailsHtml (details : value)
| HistoryHtml (history : value)
| Plain (text : ErrorText) (status : Z).

Definition timestamp (req : Request) : value := VStr (utcnow req ++ "Z").

(** The body of the [try] in [index]: [results] stays assigned when
    [append_history] raises after the search. *)
Definition index_search (req : Request) (query : string)
    : M (value * option ErrorText) :=
  try_except
    (results <- search_apps query 15 ;;
     try_except
       (count <- lift (match results with
                       | VList l => Ok (VInt (Z.of_nat (List.length l)))
                       | _ => Raise TypeError
                       end) ;;
        append_history (VDict [("timestamp", timestamp req);
                               ("type", VStr "search");
                               ("query", VStr query);
                               ("result_count", count)]) ;;;
        ret (results, None))
       (fun e => ret (results, Some (StrOf e))))
    (fun e => ret (VNone, Some (StrOf e))).

(** The end of [index]: the last twenty entries of the history, and the
    template. *)
Definition render_index (results : value) (query : string)
    (error : option ErrorText) : M Page :=
  loaded <- load_history ;;
  history <- lift (Py.slice_to 20 loaded) ;;
  ret (IndexHtml results query error history).

Definition index (req : Request) : M Page :=
  match method req with
  | POST =>
      let query :=
        Py.strip (match game_name req with Some s => s | None => "" end) in
      if Py.truthy (VStr query) then
        found <- index_search req query ;;
        render_index (fst found) query (snd found)
      else render_index VNone query (Some (Message "Please enter a game name."))
  | GET => render_index VNone "" None
  end.

Definition select (req : Request) (appid : Z) : M Page :=
  details <- get_app_details appid ;;
  match details with
  | VNone => ret (Plain (Message "Could not fetch details for that app.") 500)
  | _ =>
      name <- lift (Py.get details "name" VNone) ;;
      append_history (VDict [("timestamp", timestamp req);
                             ("type", VStr "select");
                             ("appid", VInt appid);
                             ("name", name)]) ;;;
      ret (DetailsHtml details)
  end.

Definition history (req : Request) : M Page :=
  loaded <- load_history ;;
  shown <- lift (Py.slice_to 100 loaded) ;;
  ret (HistoryHtml shown).

Definition refresh_cache (req : Request) : M Page :=
  try_except
    (fetch_and_cache_apps ;;; ret (Plain (Message "Apps cache refreshed.") 200))
    (fun e => ret (Plain (StrOf e) 500)).

(** ** Notions of the specification *)

(** A catalog entry and the object the catalog holds for it. *)
Record CatalogEntry : Type := {
  appid : Z;
  name : string
}.

Definition entry_value (e : CatalogEntry) : value :=
  VDict [("appid", VInt (appid e)); ("name", VStr (name e))].

Definition catalog_value (C : list CatalogEntry) : value :=
  VList (map entry_value C).

(** [q] occurs in [s]: some text, then [q], then some text. *)
Definition occurs_in (q s : string) : Prop :=
  exists before after, s = (before ++ q ++ after)%string.

(** The name of the entry contains the query, case put aside. *)
Definition name_matches (query : string) (e : CatalogEntry) : bool :=
  Py.contains (Py.lower query) (Py.lower (name e)).

(** The history the log stands for, for a log the process can read and
    write, or create: the list the file holds; the empty list when there is
    no file, when its bytes are not a text, or when the text is not JSON.
    There is none otherwise: for a JSON text that is not a list, for a text
    beyond the embedding, for a path the process cannot read or cannot
    write. *)
Definition stored_history (w : World) : option (list value) :=
  let f := search_history w in
  if writable f then
    match node f with
    | Missing => Some []
    | Directory => None
    | Regular bytes =>
        if readable f then
          match bytes with
          | None => Some []
          | Some s =>
              match Json.loads s with
              | Json.Parsed (VList l) => Some l
              | Json.NotJson => Some []
              | _ => None
              end
          end
        else None
    end
  else None.

(** The text [append_history] writes for a list of entries. *)
Definition history_text (l : list value) : string :=
  Json.dumps false (Some 2%nat) (VList l).

(** The text [save_apps_cache] writes. *)
Definition cache_text (data : value) : string := Json.dumps true None data.

(** What the program makes of a JSON file it loads with [fallback] for the
    failures it catches: the object decoded, and [fallback] when the path
    cannot be opened for reading, when its bytes are not a text or when the
    text is not JSON. *)
Definition read_json (fallback : value) (f : File) : Result value :=
  match read_file f with
  | Ok s =>
      match Json.loads s with
      | Json.Parsed v => Ok v
      | Json.NotJson => Ok fallback
      | Json.Foreign => Beyond
      end
  | Raise _ | Beyond => Ok fallback
  end.

(** The three states in which a file gives the program nothing: there is
    nothing at the path; what is there cannot be read (a directory, a file
    the process may not read, bytes that are not a text); the text read is
    not JSON. *)
Definition absent (f : File) : Prop := node f = Missing.

Definition unreadable (f : File) : Prop :=
  match node f with
  | Missing => False
  | Directory => True
  | Regular bytes => readable f = false \/ bytes = None
  end.

Definition corrupt (f : File) : Prop :=
  exists s, read_file f = Ok s /\ Json.loads s = Json.NotJson.

Definition unusable (f : File) : Prop := absent f \/ unreadable f \/ corrupt f.

Definition cache_unusable (w : World) : Prop := unusable (apps_cache w).

(** The file holds the JSON text [null]. *)
Definition holds_null (f : File) : Prop :=
  exists s, read_file f = Ok s /\ Json.loads s = Json.Parsed VNone.

(** The path can be opened for writing: it is no directory, and the
    process may write the file, or create it. *)
Definition opens_for_writing (f : File) : bool :=
  match node f with
  | Directory => false
  | Missing | Regular _ => writable f
  end.

(** The process can write the file and read it back: there is no file yet
    and it may create one, or there is a file it may read and write. *)
Definition cache_accessible_file (f : File) : Prop :=
  writable f = true
  /\ match node f with
     | Missing => True
     | Directory => False
     | Regular _ => readable f = true
     end.

Definition cache_accessible (w : World) : Prop :=
  cache_accessible_file (apps_cache w).



(** The [data] object of a successful details response for [appid]: status
    200, a JSON object with a truthy [success] under the identifier. *)
Definition details_info (appid : Z) (w : World) : option (list (string * value)) :=
  match remote w STEAM_APP_DETAILS_URL (details_params appid) with
  | Failure _ => None
  | Reply r =>
      if negb (status_code r =? 200)%Z then None else
      match Json.loads (body r) with
      | Json.Parsed (VDict j) =>
          match Py.lookup (Py.str_int appid) j with
          | Some (VDict data) =>
              match Py.lookup "success" data with
              | Some success =>
                  if Py.truthy success then
                    match Py.lookup "data" data with
                    | Some (VDict info) => Some info
                    | Some _ => None
                    | None => Some []
                    end
                  else None
              | None => None
              end
          | _ => None
          end
      | _ => None
      end
  end.




(** ** Worlds for the examples *)

(** The given files, and a remote that answers every request with
    [answer]. *)
Definition world_of (cache log : File) (answer : Outcome) : World :=
  {| apps_cache := cache; search_history := log; remote := fun _ _ => answer |}.

(** A response with status 200 whose body is the JSON text of [data]. *)
Definition reply_json (data : value) : Outcome :=
  Reply {| status_code := 200; body := Json.dumps true None data |}.

Definition offline : Outcome := Failure ConnectionError.

Definition catalog0 : list CatalogEntry :=
  [ {| appid := 1; name := "Half-Life" |};
    {| appid := 2; name := "Half-Life 2" |};
    {| appid := 3; name := "Portal" |} ].

(** A cache file that holds [null], and a remote that serves a catalog. *)
Definition null_cache_world : World :=
  world_of (Text "null") NoFile
    (reply_json (VDict [("applist", VDict [("apps", catalog_value catalog0)])])).

Definition world0 : World :=
  world_of (Text (cache_text (catalog_value catalog0))) NoFile offline.

Definition search_event (query : string) (count : Z) : value :=
  VDict [("timestamp", VStr "2024-01-01T00:00:00Z");
         ("type", VStr "search");
         ("query", VStr query);
         ("result_count", VInt count)].

(** The details response for identifier 570 with the given [data] object. *)
Definition details_of (info : list (string * value)) : Outcome :=
  reply_json (VDict [("570", VDict [("success", VBool true); ("data", VDict info)])]).

(** A log of [n] searches, the newest first: the one for ["game n"] down to
    the one for ["game 1"]. *)
Definition log_of (n : nat) : list value :=
  map (fun i => search_event ("game " ++ Py.str_int (Z.of_nat i)) 1)
      (List.rev (seq 1 n)).

Definition blank_post : Request :=
  {| method := POST; game_name := Some "   "; utcnow := "2024-01-01T00:00:00" |}.

Definition applist_reply : Outcome :=
  reply_json (VDict [("applist", VDict [("apps", catalog_value catalog0)])]).

Definition free_game : list (string * value) :=
  [("name", VStr "Dota 2"); ("is_free", VBool true)].


(** * Proofs *)

(** ** The decoder undoes the encoder *)

Import Json.

Ltac ascii_cases c :=
  destruct c as [[|] [|] [|] [|] [|] [|] [|] [|]].

Lemma value_ind_nested (P : value -> Prop) :
  P VNone ->
  (forall b, P (VBool b)) ->
  (forall z, P (VInt z)) ->
  (forall s, P (VStr s)) ->
  (forall l, Forall P l -> P (VList l)) ->
  (forall d, Forall (fun kv => P (snd kv)) d -> P (VDict d)) ->
  forall v, P v.
Proof.
  intros HN HB HI HS HL HD.
  fix IH 1.
  intros [ | b | z | s | l | d].
  - exact HN.
  - apply HB.
  - apply HI.
  - apply HS.
  - apply HL. induction l as [ | x l IHl]; constructor; [apply IH | exact IHl].
  - apply HD. induction d as [ | [k x] d IHd]; constructor; [apply IH | exact IHd].
Qed.

(** Dicts. *)

Lemma distinct_app_mid (xs ys : list string) (k : string) :
  Py.distinct (xs ++ k :: ys) = true ->
  forallb (fun k' => negb (String.eqb k' k)) xs = true.
Proof.
  induction xs as [ | x xs IH]; [reflexivity | ].
  cbn [List.app Py.distinct forallb]. intros H.
  apply andb_true_iff in H. destruct H as [Hx Hxs].
  apply negb_true_iff in Hx. rewrite existsb_app in Hx.
  apply orb_false_iff in Hx. destruct Hx as [_ Hx]. cbn [existsb] in Hx.
  apply orb_false_iff in Hx. destruct Hx as [Hx _].
  rewrite Hx. cbn [negb andb]. now apply IH.
Qed.

Lemma setitem_fresh (k : string) (v : value) (d : list (string * value)) :
  forallb (fun k' => negb (String.eqb k' k)) (map fst d) = true ->
  Py.setitem k v d = d ++ [(k, v)].
Proof.
  induction d as [ | [k' v'] d IH]; [reflexivity | ].
  cbn [map fst forallb Py.setitem List.app]. intros H.
  apply andb_true_iff in H. destruct H as [Hk Hd].
  apply negb_true_iff in Hk. rewrite Hk. now rewrite IH.
Qed.

Lemma dict_from (pairs : list (string * value)) :
  forall acc : list (string * value),
    Py.distinct (map fst (acc ++ pairs)) = true ->
    fold_left (fun d kv => Py.setitem (fst kv) (snd kv) d) pairs acc
    = acc ++ pairs.
Proof.
  induction pairs as [ | [k v] pairs IH]; intros acc H.
  - cbn [fold_left]. now rewrite List.app_nil_r.
  - cbn [fold_left fst snd].
    rewrite setitem_fresh.
    + rewrite IH; rewrite <- List.app_assoc; [reflexivity | exact H].
    + rewrite map_app in H. cbn [map fst] in H.
      now apply distinct_app_mid in H.
Qed.

(** The dict of pairs with distinct keys is the pairs. *)
Lemma dict_distinct (pairs : list (string * value)) :
  Py.distinct (map fst pairs) = true -> Py.dict pairs = pairs.
Proof. intros H. unfold Py.dict. now rewrite dict_from. Qed.

Lemma setitem_keys (p : string -> bool) (k : string) (v : value)
    (d : list (string * value)) :
  existsb p (map fst (Py.setitem k v d)) = true ->
  existsb p (map fst d) = true \/ p k = true.
Proof.
  induction d as [ | [k' v'] d IH]; cbn [Py.setitem map fst existsb].
  - rewrite orb_false_r. now right.
  - destruct (String.eqb k' k); cbn [map fst existsb]; [now left | ].
    intros H. apply orb_true_iff in H. destruct H as [H | H].
    + left. now rewrite H.
    + destruct (IH H) as [H' | H']; [left | now right].
      rewrite H'. apply orb_true_r.
Qed.

Lemma setitem_distinct (k : string) (v : value) (d : list (string * value)) :
  Py.distinct (map fst d) = true ->
  Py.distinct (map fst (Py.setitem k v d)) = true.
Proof.
  induction d as [ | [k' v'] d IH]; [reflexivity | ].
  cbn [Py.setitem map fst Py.distinct]. intros H.
  apply andb_true_iff in H. destruct H as [Hk Hd].
  destruct (String.eqb k' k) eqn:E; cbn [map fst Py.distinct].
  - now rewrite Hk, Hd.
  - rewrite (IH Hd), andb_true_r. apply negb_true_iff.
    destruct (existsb (String.eqb k') (map fst (Py.setitem k v d))) eqn:Hex;
      [ | reflexivity].
    destruct (setitem_keys _ _ _ _ Hex) as [H | H].
    + apply negb_true_iff in Hk. congruence.
    + congruence.
Qed.

Lemma setitem_well_formed (k : string) (v : value) (d : list (string * value)) :
  Py.well_formed v = true ->
  forallb (fun kv => Py.well_formed (snd kv)) d = true ->
  forallb (fun kv => Py.well_formed (snd kv)) (Py.setitem k v d) = true.
Proof.
  intros Hv. induction d as [ | [k' v'] d IH]; cbn [Py.setitem forallb snd].
  - now rewrite Hv.
  - intros H. apply andb_true_iff in H. destruct H as [Hx Hd].
    destruct (String.eqb k' k); cbn [forallb snd].
    + now rewrite Hv, Hd.
    + now rewrite Hx, IH.
Qed.

(** The dict of pairs of objects is an object. *)
Lemma dict_well_formed (pairs : list (string * value)) :
  forallb (fun kv => Py.well_formed (snd kv)) pairs = true ->
  Py.well_formed (VDict (Py.dict pairs)) = true.
Proof.
  unfold Py.dict.
  assert (H : forall acc,
             Py.well_formed (VDict acc) = true ->
             forallb (fun kv => Py.well_formed (snd kv)) pairs = true ->
             Py.well_formed
               (VDict (fold_left (fun d kv => Py.setitem (fst kv) (snd kv) d)
                         pairs acc)) = true).
  { induction pairs as [ | [k v] pairs IH]; intros acc Hacc Hp; [exact Hacc | ].
    cbn [fold_left fst snd]. cbn [forallb snd] in Hp.
    apply andb_true_iff in Hp. destruct Hp as [Hv Hp].
    apply IH; [ | exact Hp].
    cbn [Py.well_formed] in Hacc |- *.
    apply andb_true_iff in Hacc. destruct Hacc as [Hd Hw].
    rewrite setitem_distinct by exact Hd.
    now rewrite setitem_well_formed. }
  now apply H.
Qed.

Lemma lookup_well_formed (k : string) (d : list (string * value)) (v : value) :
  forallb (fun kv => Py.well_formed (snd kv)) d = true ->
  Py.lookup k d = Some v -> Py.well_formed v = true.
Proof.
  induction d as [ | [k' v'] d IH]; [discriminate | ].
  cbn [forallb snd Py.lookup]. intros H.
  apply andb_true_iff in H. destruct H as [Hx Hd].
  destruct (Py.lookup k d) as [x | ].
  - intros [= <-]. now apply IH.
  - destruct (String.eqb k' k); [now intros [= <-] | discriminate].
Qed.

(** What [obj.get] returns of an object is an object. *)
Lemma get_well_formed (obj : value) (k : string) (default v : value) :
  Py.well_formed obj = true -> Py.well_formed default = true ->
  Py.get obj k default = Ok v -> Py.well_formed v = true.
Proof.
  destruct obj as [ | | | | | d]; try discriminate.
  cbn [Py.well_formed Py.get]. intros H Hdef.
  apply andb_true_iff in H. destruct H as [_ H].
  destruct (Py.lookup k d) as [x | ] eqn:E; intros [= <-]; [ | exact Hdef].
  now apply (lookup_well_formed k d).
Qed.

(** White space. *)

Lemma skip_ws_app (ws s : list ascii) :
  Forall (fun c => is_ws c = true) ws -> skip_ws (ws ++ s) = skip_ws s.
Proof.
  induction 1 as [ | c ws Hc _ IH]; simpl; [reflexivity | ].
  now rewrite Hc.
Qed.

Lemma skip_ws_stop (c : ascii) (s : list ascii) :
  is_ws c = false -> skip_ws (c :: s) = c :: s.
Proof. intros H. simpl. now rewrite H. Qed.

Lemma newline_indent_ws (indent : option nat) (level : nat) :
  Forall (fun c => is_ws c = true) (newline_indent indent level).
Proof.
  unfold newline_indent. destruct indent as [n | ]; [ | constructor].
  constructor; [reflexivity | ].
  induction (n * level)%nat; simpl; constructor; [reflexivity | assumption].
Qed.

(** Strings. *)

Lemma scan_string_escape_char (ea : bool) (c : ascii) (r : list ascii) :
  scan_string (escape_char ea c ++ r)
  = match scan_string r with
    | Got t r' => Got (String c t) r'
    | Bad => Bad
    | Far => Far
    end.
Proof.
  destruct ea; ascii_cases c; reflexivity.
Qed.

Lemma scan_string_escaped (ea : bool) (cs rest : list ascii) :
  scan_string (flat_map (escape_char ea) cs ++ dquote :: rest)
  = Got (string_of_list_ascii cs) rest.
Proof.
  induction cs as [ | c cs IH]; [reflexivity | ].
  cbn [flat_map]. rewrite <- app_assoc, scan_string_escape_char, IH.
  reflexivity.
Qed.

Lemma scan_string_encode (ea : bool) (s : string) (rest : list ascii) :
  scan_string (tl (encode_string ea s) ++ rest) = Got s rest.
Proof.
  unfold encode_string. cbn [tl]. rewrite <- app_assoc.
  change ([dquote] ++ rest) with (dquote :: rest).
  rewrite scan_string_escaped. unfold chars_of.
  now rewrite string_of_list_ascii_of_string.
Qed.

Lemma scan_digits_uint (u : uint) (rest : list ascii) :
  delimited rest ->
  scan_digits (chars_of (NilEmpty.string_of_uint u) ++ rest) = (u, rest).
Proof.
  intros Hrest. unfold chars_of.
  induction u.
  1: { destruct rest as [ | c r]; [reflexivity | ].
       cbn in Hrest. unfold number_stop, is_digit in Hrest.
       cbn. destruct (digit_of c); [discriminate | reflexivity]. }
  all: cbn [NilEmpty.string_of_uint list_ascii_of_string List.app scan_digits].
  all: match goal with
       | |- context [digit_of ?c] =>
           let d := eval vm_compute in (digit_of c) in
           change (digit_of c) with d
       end.
  all: cbv beta iota; rewrite IHu; reflexivity.
Qed.

(** The decimal digits of a positive number start with a digit other than
    zero. *)
Lemma to_uint_unorm (p : positive) : unorm (Pos.to_uint p) = Pos.to_uint p.
Proof.
  rewrite <- (DecimalPos.Unsigned.to_of (Pos.to_uint p)).
  now rewrite DecimalPos.Unsigned.of_to.
Qed.

Lemma to_uint_head (p : positive) :
  match Pos.to_uint p with
  | Nil | D0 _ => False
  | _ => True
  end.
Proof.
  pose proof (to_uint_unorm p) as Hn.
  pose proof (DecimalPos.Unsigned.to_uint_nonzero p) as Hz.
  destruct (Pos.to_uint p) as [ | u | u | u | u | u | u | u | u | u | u ] eqn:E;
    try exact I.
  - now apply (DecimalPos.Unsigned.to_uint_nonnil p).
  - rewrite unorm_D0 in Hn.
    destruct u as [ | u | u | u | u | u | u | u | u | u | u ];
      try (now apply Hz);
      match type of Hn with
      | unorm ?d = _ =>
          assert (Hd : d <> Nil) by discriminate;
          apply nb_digits_unorm in Hd; rewrite Hn in Hd; cbn in Hd; lia
      end.
Qed.

Lemma scan_natural_pos (p : positive) (rest : list ascii) :
  delimited rest ->
  scan_natural (chars_of (NilZero.string_of_uint (Pos.to_uint p)) ++ rest)
  = Some (Pos.to_uint p, rest).
Proof.
  intros Hrest. pose proof (to_uint_head p) as Hh.
  destruct (Pos.to_uint p) as [ | u | u | u | u | u | u | u | u | u | u ] eqn:E;
    try contradiction;
    unfold NilZero.string_of_uint;
    match goal with
    | |- scan_natural (chars_of (NilEmpty.string_of_uint ?d) ++ _) = _ =>
        pose proof (scan_digits_uint d rest Hrest) as Hs
    end;
    cbn in Hs |- *; destruct (scan_digits _) as [u' r']; now inversion Hs.
Qed.

Lemma finish_number_delimited (z : Z) (rest : list ascii) :
  delimited rest -> finish_number z rest = Got (VInt z) rest.
Proof.
  intros H. unfold finish_number.
  replace (float_tail rest) with false; [reflexivity | ].
  destruct rest as [ | c [ | d r]]; try reflexivity.
  cbn in H. unfold number_stop in H.
  apply andb_true_iff in H. destruct H as [_ H].
  apply negb_true_iff, orb_false_iff in H. destruct H as [H He].
  apply orb_false_iff in H. destruct H as [Hp Hl].
  unfold float_tail. now rewrite Hp, Hl, He.
Qed.

Lemma scan_number_encode (z : Z) (rest : list ascii) :
  delimited rest ->
  scan_number (encode_int z ++ rest) = Got (VInt z) rest.
Proof.
  intros Hrest.
  unfold encode_int, Py.str_int.
  pose proof (DecimalZ.of_to z) as Hz.
  destruct z as [ | p | p]; cbn [Z.to_int NilZero.string_of_int] in *.
  - cbn -[finish_number]. now apply finish_number_delimited.
  - pose proof (scan_natural_pos p rest Hrest) as Hs.
    pose proof (to_uint_head p) as Hh.
    destruct (Pos.to_uint p) as [ | u | u | u | u | u | u | u | u | u | u ] eqn:E;
      try contradiction;
      cbn -[finish_number Z.of_int scan_natural] in Hs |- *;
      rewrite Hs, Hz; now apply finish_number_delimited.
  - pose proof (scan_natural_pos p rest Hrest) as Hs.
    cbn -[finish_number Z.of_int scan_natural NilZero.string_of_uint].
    unfold chars_of in Hs. rewrite Hs, Hz. now apply finish_number_delimited.
Qed.

(** The first character of an encoded value. *)

Lemma starts_value_facts (c : ascii) :
  starts_value c = true ->
  is_ws c = false /\ Ascii.eqb c "]" = false /\ Ascii.eqb c "}" = false.
Proof.
  intros H. ascii_cases c; vm_compute in H; try discriminate H;
    repeat split; reflexivity.
Qed.

Lemma scan_value_number (fuel : nat) (c : ascii) (r : list ascii) :
  is_digit c || Ascii.eqb c "-" = true ->
  scan_value (S fuel) (c :: r) = scan_number (c :: r).
Proof.
  intros H. ascii_cases c; vm_compute in H; try discriminate H; reflexivity.
Qed.

Lemma encode_int_head (z : Z) :
  exists c tl, encode_int z = c :: tl /\ is_digit c || Ascii.eqb c "-" = true.
Proof.
  unfold encode_int, Py.str_int.
  destruct z as [ | p | p]; cbn [Z.to_int NilZero.string_of_int].
  - eexists _, _. split; reflexivity.
  - pose proof (to_uint_head p) as Hh.
    destruct (Pos.to_uint p); try contradiction;
      eexists _, _; split; reflexivity.
  - eexists _, _. split; reflexivity.
Qed.

Section RoundTrip.

Variable ensure_ascii : bool.
Variable indent : option nat.

Abbreviation enc := (encode ensure_ascii indent).
Abbreviation nl := (newline_indent indent).
Abbreviation sep := (item_separator indent).
Abbreviation itext := (Json.items_text indent).
Abbreviation mtext := (Json.member_text ensure_ascii indent).
Abbreviation dec := (Json.decodes ensure_ascii indent).

Lemma encode_head (level : nat) (v : value) :
  exists c tl, enc level v = c :: tl /\ starts_value c = true.
Proof.
  destruct v as [ | [ | ] | z | s | l | d]; cbn [encode].
  - eexists _, _. split; reflexivity.
  - eexists _, _. split; reflexivity.
  - eexists _, _. split; reflexivity.
  - destruct (encode_int_head z) as (c & tl & E & H). exists c, tl. split; [exact E | ].
    unfold starts_value. apply orb_true_iff in H. destruct H as [H | H]; rewrite H;
      repeat rewrite orb_true_r; reflexivity.
  - eexists _, _. split; reflexivity.
  - destruct l; eexists _, _; split; reflexivity.
  - destruct d; eexists _, _; split; reflexivity.
Qed.

Lemma skip_ws_encode (level : nat) (v : value) (ws rest : list ascii) :
  Forall (fun c => is_ws c = true) ws ->
  skip_ws (ws ++ enc level v ++ rest) = enc level v ++ rest.
Proof.
  intros Hws. rewrite skip_ws_app by exact Hws.
  destruct (encode_head level v) as (c & tl & E & H). rewrite E.
  apply skip_ws_stop. now apply starts_value_facts.
Qed.

Lemma item_separator_shape :
  exists sp, sep = ","%char :: sp /\ Forall (fun c => is_ws c = true) sp.
Proof.
  unfold item_separator. destruct indent.
  - exists []. split; [reflexivity | constructor].
  - exists [" "%char]. split; [reflexivity | ]. repeat constructor.
Qed.

Lemma delimited_ws_then (ws : list ascii) (c : ascii) (rest : list ascii) :
  Forall (fun c => is_ws c = true) ws ->
  number_stop c = true ->
  delimited (ws ++ c :: rest).
Proof.
  intros Hws Hc. destruct Hws as [ | w ws Hw _]; [exact Hc | ].
  cbn. revert Hw. ascii_cases w; intros Hw; vm_compute in Hw;
    try discriminate Hw; reflexivity.
Qed.

Lemma items_text_nil level ws closing rest :
  itext level ws closing [] rest = ws ++ closing :: rest.
Proof. reflexivity. Qed.

Lemma items_text_cons level ws closing j items rest :
  exists sp,
    Forall (fun c => is_ws c = true) sp
    /\ itext level ws closing (j :: items) rest
       = ","%char :: sp ++ j ++ itext level ws closing items rest.
Proof.
  destruct item_separator_shape as (sp & E & Hsp).
  exists (sp ++ nl level). split.
  - apply Forall_app. split; [exact Hsp | apply newline_indent_ws].
  - unfold Json.items_text. cbn [flat_map]. rewrite E.
    cbn [List.app]. now rewrite <- !app_assoc.
Qed.

Lemma delimited_items_text level ws closing items rest :
  Forall (fun c => is_ws c = true) ws ->
  number_stop closing = true ->
  delimited (itext level ws closing items rest).
Proof.
  intros Hws Hc. destruct items as [ | j items].
  - now apply delimited_ws_then.
  - destruct (items_text_cons level ws closing j items rest) as (sp & _ & E).
    rewrite E. reflexivity.
Qed.

Lemma scan_elements_more fuel s v r r' :
  scan_value fuel s = Got v r ->
  skip_ws r = ","%char :: r' ->
  scan_elements (S fuel) s
  = match scan_elements fuel (skip_ws r') with
    | Got l r2 => Got (v :: l) r2
    | Bad => Bad
    | Far => Far
    end.
Proof. intros Hv Hr. cbn [scan_elements]. now rewrite Hv, Hr. Qed.

Lemma scan_elements_last fuel s v r r' :
  scan_value fuel s = Got v r ->
  skip_ws r = "]"%char :: r' ->
  scan_elements (S fuel) s = Got [v] r'.
Proof. intros Hv Hr. cbn [scan_elements]. now rewrite Hv, Hr. Qed.

Lemma scan_elements_encode (xs : list value) :
  Forall dec xs ->
  forall x level ws rest fuel,
    dec x ->
    Forall (fun c => is_ws c = true) ws ->
    list_sum (map (fun y => S (cost y)) (x :: xs)) <= fuel ->
    scan_elements fuel
      (enc level x ++ itext level ws "]" (map (enc level) xs) rest)
    = Got (x :: xs) rest.
Proof.
  induction 1 as [ | y ys Hy _ IH]; intros x level ws rest fuel Hx Hws Hfuel;
    cbn [map list_sum fold_right] in Hfuel;
    (destruct fuel as [ | fuel]; [lia | ]).
  - apply scan_elements_last with (r := itext level ws "]" [] rest).
    + apply Hx; [apply delimited_items_text; [exact Hws | reflexivity] | lia].
    + rewrite items_text_nil, skip_ws_app by exact Hws. reflexivity.
  - cbn [map].
    destruct (items_text_cons level ws "]" (enc level y) (map (enc level) ys) rest)
      as (sp & Hsp & E).
    rewrite scan_elements_more
      with (v := x) (r := itext level ws "]" (enc level y :: map (enc level) ys) rest)
           (r' := sp ++ enc level y ++ itext level ws "]" (map (enc level) ys) rest).
    + rewrite skip_ws_encode by exact Hsp.
      rewrite IH; [reflexivity | exact Hy | exact Hws | ].
      cbn [map list_sum fold_right]. lia.
    + apply Hx; [apply delimited_items_text; [exact Hws | reflexivity] | lia].
    + rewrite E. reflexivity.
Qed.

Lemma scan_members_text fuel level k v tail :
  dec v -> delimited tail -> cost v <= fuel ->
  scan_members (S fuel)
    (encode_string ensure_ascii k ++ key_separator ++ enc level v ++ tail)
  = match skip_ws tail with
    | c :: r4 =>
        if Ascii.eqb c "," then
          match scan_members fuel (skip_ws r4) with
          | Got d r5 => Got ((k, v) :: d) r5
          | Bad => Bad
          | Far => Far
          end
        else if Ascii.eqb c "}" then Got [(k, v)] r4
        else Bad
    | [] => Bad
    end.
Proof.
  intros Hv Htail Hfuel.
  cbn [scan_members].
  change (encode_string ensure_ascii k ++ key_separator ++ enc level v ++ tail)
    with (dquote :: tl (encode_string ensure_ascii k)
            ++ key_separator ++ enc level v ++ tail).
  change (expect [dquote] (dquote :: ?x)) with (Some x).
  cbv beta iota. rewrite scan_string_encode.
  change (key_separator ++ enc level v ++ tail)
    with (":"%char :: [" "%char] ++ enc level v ++ tail).
  rewrite skip_ws_stop by reflexivity.
  change (expect [":"%char] (":"%char :: ?x)) with (Some x).
  cbv beta iota.
  rewrite skip_ws_encode by (repeat constructor).
  rewrite Hv by assumption. reflexivity.
Qed.

Lemma skip_ws_member level kv ws rest :
  Forall (fun c => is_ws c = true) ws ->
  skip_ws (ws ++ mtext level kv ++ rest) = mtext level kv ++ rest.
Proof.
  intros Hws. rewrite skip_ws_app by exact Hws. reflexivity.
Qed.

Lemma scan_members_encode (d : list (string * value)) :
  Forall (fun kv => dec (snd kv)) d ->
  forall kv level ws rest fuel,
    dec (snd kv) ->
    Forall (fun c => is_ws c = true) ws ->
    list_sum (map (fun y => S (cost (snd y))) (kv :: d)) <= fuel ->
    scan_members fuel
      (mtext level kv ++ itext level ws "}" (map (mtext level) d) rest)
    = Got (kv :: d) rest.
Proof.
  induction 1 as [ | y ys Hy _ IH];
    intros [k x] level ws rest fuel Hx Hws Hfuel;
    cbn [map list_sum fold_right snd] in Hfuel, Hx;
    (destruct fuel as [ | fuel]; [lia | ]);
    unfold Json.member_text at 1; cbn [fst snd]; rewrite <- !app_assoc;
    (rewrite scan_members_text;
     [ | exact Hx | apply delimited_items_text; [exact Hws | reflexivity] | lia]).
  - cbn [map]. rewrite items_text_nil, skip_ws_app by exact Hws. reflexivity.
  - cbn [map].
    destruct (items_text_cons level ws "}" (mtext level y)
                (map (mtext level) ys) rest) as (sp & Hsp & E).
    rewrite E. rewrite skip_ws_stop by reflexivity.
    change (Ascii.eqb "," ",") with true. cbv beta iota.
    rewrite skip_ws_member by exact Hsp.
    rewrite IH; [reflexivity | exact Hy | exact Hws | ].
    cbn [map list_sum fold_right]. lia.
Qed.

Lemma expect_closing_fails (closing c : ascii) (s : list ascii) :
  Ascii.eqb c closing = false -> expect [closing] (c :: s) = None.
Proof.
  intros H. cbn [expect]. rewrite Ascii.eqb_sym, H. reflexivity.
Qed.

Lemma expect_closing_value (level : nat) (v : value) (s : list ascii) :
  expect ["]"%char] (enc level v ++ s) = None.
Proof.
  destruct (encode_head level v) as (c & r & E & H).
  rewrite E. cbn [List.app].
  apply expect_closing_fails. now apply starts_value_facts.
Qed.

Lemma expect_closing_member (level : nat) (kv : string * value) (s : list ascii) :
  expect ["}"%char] (mtext level kv ++ s) = None.
Proof. reflexivity. Qed.

(** Decoding undoes encoding, for the value of every object. *)
Lemma decodes_all (v : value) : Py.well_formed v = true -> dec v.
Proof.
  induction v as [ | b | z | s | l IHl | d IHd] using value_ind_nested;
    intros Hwf level rest fuel Hrest Hfuel;
    (destruct fuel as [ | fuel]; [cbn in Hfuel; lia | ]).
  - reflexivity.
  - destruct b; reflexivity.
  - cbn [encode].
    destruct (encode_int_head z) as (c & r & E & H).
    rewrite E. cbn [List.app]. rewrite scan_value_number by exact H.
    rewrite app_comm_cons, <- E. now apply scan_number_encode.
  - cbn [encode].
    change (encode_string ensure_ascii s ++ rest)
      with (dquote :: tl (encode_string ensure_ascii s) ++ rest).
    cbn [scan_value]. change (Ascii.eqb dquote dquote) with true. cbv beta iota.
    now rewrite scan_string_encode.
  - assert (Hl : Forall dec l).
    { cbn [Py.well_formed] in Hwf. rewrite forallb_forall in Hwf.
      rewrite Forall_forall in IHl |- *. intros x Hx. apply IHl; auto. }
    clear IHl Hwf.
    destruct l as [ | x xs]; [reflexivity | ].
    inversion Hl as [ | ? ? Hx Hxs]; subst.
    cbn [encode map bracket]. cbn [cost map list_sum fold_right] in Hfuel.
    rewrite <- app_comm_cons, <- !app_assoc.
    change (["]"%char] ++ rest) with ("]"%char :: rest).
    fold (itext (S level) (nl level) "]" (map (enc (S level)) xs) rest).
    cbn [scan_value]. change (Ascii.eqb "[" dquote) with false.
    change (Ascii.eqb "[" "{") with false. change (Ascii.eqb "[" "[") with true.
    cbv beta iota.
    rewrite skip_ws_encode by apply newline_indent_ws.
    rewrite expect_closing_value.
    rewrite scan_elements_encode;
      [reflexivity | exact Hxs | exact Hx | apply newline_indent_ws | ].
    cbn [map list_sum fold_right]. lia.
  - cbn [Py.well_formed] in Hwf. apply andb_true_iff in Hwf.
    destruct Hwf as [Hkeys Hwf].
    assert (Hd : Forall (fun kv => dec (snd kv)) d).
    { rewrite forallb_forall in Hwf.
      rewrite Forall_forall in IHd |- *. intros x Hx. apply IHd; auto. }
    clear IHd Hwf.
    destruct d as [ | kv d]; [reflexivity | ].
    inversion Hd as [ | ? ? Hx Hxs]; subst.
    cbn [encode map bracket]. cbn [cost map list_sum fold_right] in Hfuel.
    rewrite <- app_comm_cons, <- !app_assoc.
    change (["}"%char] ++ rest) with ("}"%char :: rest).
    change (fun kv0 : string * value =>
              encode_string ensure_ascii (fst kv0)
                ++ key_separator ++ enc (S level) (snd kv0))
      with (mtext (S level)).
    fold (itext (S level) (nl level) "}" (map (mtext (S level)) d) rest).
    cbn [scan_value]. change (Ascii.eqb "{" dquote) with false.
    change (Ascii.eqb "{" "{") with true.
    cbv beta iota.
    assert (Em : forall t,
               encode_string ensure_ascii (fst kv)
                 ++ key_separator ++ enc (S level) (snd kv) ++ t
               = mtext (S level) kv ++ t)
      by (intros t; unfold Json.member_text; now rewrite <- !app_assoc).
    rewrite Em, skip_ws_member by apply newline_indent_ws.
    rewrite expect_closing_member.
    rewrite scan_members_encode;
      [ | exact Hxs | exact Hx | apply newline_indent_ws | ].
    + now rewrite dict_distinct.
    + cbn [map list_sum fold_right]. lia.
Qed.

Lemma cost_items_length (A : Type) (weight : A -> nat) (text : A -> list ascii)
    (level : nat) (xs : list A) :
  Forall (fun x => weight x <= List.length (text x)) xs ->
  list_sum (map (fun x => S (weight x)) xs)
  <= List.length (flat_map (fun j => sep ++ nl level ++ j) (map text xs)).
Proof.
  assert (Hsep : 1 <= List.length sep).
  { destruct item_separator_shape as (sp & E & _). rewrite E. cbn. lia. }
  induction 1 as [ | x xs Hx _ IH]; [apply Nat.le_refl | ].
  cbn [map list_sum fold_right flat_map].
  rewrite !length_app.
  change (fold_right Init.Nat.add 0 (map (fun x => S (weight x)) xs))
    with (list_sum (map (fun x => S (weight x)) xs)).
  lia.
Qed.

Lemma cost_bracket (A : Type) (weight : A -> nat) (text : A -> list ascii)
    (opening closing : ascii) (level : nat) (xs : list A) :
  Forall (fun x => weight x <= List.length (text x)) xs ->
  S (list_sum (map (fun x => S (weight x)) xs))
  <= List.length (bracket indent opening closing level (map text xs)).
Proof.
  intros H. destruct H as [ | x xs Hx Hxs]; [cbn; lia | ].
  pose proof (cost_items_length A weight text (S level) xs Hxs) as Hl.
  cbn [map bracket list_sum fold_right List.length].
  rewrite !length_app. cbn [List.length].
  change (fold_right Init.Nat.add 0 (map (fun x => S (weight x)) xs))
    with (list_sum (map (fun x => S (weight x)) xs)).
  lia.
Qed.

Lemma cost_le_length (v : value) :
  forall level, cost v <= List.length (enc level v).
Proof.
  induction v as [ | b | z | s | l IHl | d IHd] using value_ind_nested;
    intros level.
  1-4: match goal with
       | |- cost ?v <= _ =>
           destruct (encode_head level v) as (c & r & E & _);
           rewrite E; cbn; lia
       end.
  - cbn [cost encode].
    apply (cost_bracket value cost (enc (S level))).
    eapply Forall_impl; [ | exact IHl]. intros x Hx. apply Hx.
  - cbn [cost encode].
    apply (cost_bracket (string * value) (fun kv => cost (snd kv))
             (fun kv => encode_string ensure_ascii (fst kv)
                          ++ key_separator ++ enc (S level) (snd kv))).
    eapply Forall_impl; [ | exact IHd]. intros [k x] Hx. cbn [fst snd] in *.
    rewrite !length_app. specialize (Hx (S level)). lia.
Qed.

(** [json.loads(json.dumps(v, ...)) == v]. *)
Lemma loads_dumps (v : value) :
  Py.well_formed v = true ->
  loads (dumps ensure_ascii indent v) = Parsed v.
Proof.
  intros Hwf. unfold loads, dumps, chars_of.
  rewrite list_ascii_of_string_of_list_ascii.
  pose proof (skip_ws_encode 0 v [] [] (Forall_nil _)) as Hs.
  cbn [List.app] in Hs. rewrite List.app_nil_r in Hs. rewrite Hs.
  pose proof (decodes_all v Hwf 0 [] (S (List.length (enc 0 v))) I) as Hd.
  rewrite List.app_nil_r in Hd. rewrite Hd; [reflexivity | ].
  pose proof (cost_le_length v 0). lia.
Qed.

End RoundTrip.

(** ** What the decoder returns is an object *)

Lemma scan_well_formed (fuel : nat) :
  (forall s v r, scan_value fuel s = Got v r -> Py.well_formed v = true)
  /\ (forall s l r,
         scan_elements fuel s = Got l r -> forallb Py.well_formed l = true)
  /\ (forall s d r,
         scan_members fuel s = Got d r ->
         forallb (fun kv => Py.well_formed (snd kv)) d = true).
Proof.
  induction fuel as [ | fuel (IHv & IHl & IHd)];
    [repeat split; discriminate | ].
  split; [ | split].
  - intros s v r. cbn [scan_value].
    destruct s as [ | c s]; [discriminate | ].
    destruct (Ascii.eqb c dquote).
    { destruct (scan_string s); try discriminate. now intros [= <- <-]. }
    destruct (Ascii.eqb c "{").
    { destruct (expect ["}"%char] (skip_ws s)); [now intros [= <- <-] | ].
      destruct (scan_members fuel (skip_ws s)) as [d r' | | ] eqn:E;
        try discriminate.
      intros [= <- <-]. apply dict_well_formed. now apply (IHd _ _ _ E). }
    destruct (Ascii.eqb c "[").
    { destruct (expect ["]"%char] (skip_ws s)); [now intros [= <- <-] | ].
      destruct (scan_elements fuel (skip_ws s)) as [l r' | | ] eqn:E;
        try discriminate.
      intros [= <- <-]. cbn [Py.well_formed]. now apply (IHl _ _ _ E). }
    destruct (Ascii.eqb c "n").
    { destruct (expect (chars_of "ull") s); [now intros [= <- <-] | discriminate]. }
    destruct (Ascii.eqb c "t").
    { destruct (expect (chars_of "rue") s); [now intros [= <- <-] | discriminate]. }
    destruct (Ascii.eqb c "f").
    { destruct (expect (chars_of "alse") s); [now intros [= <- <-] | discriminate]. }
    destruct (Ascii.eqb c "N").
    { destruct (expect (chars_of "aN") s); discriminate. }
    destruct (Ascii.eqb c "I").
    { destruct (expect (chars_of "nfinity") s); discriminate. }
    unfold scan_number, finish_number.
    destruct (Ascii.eqb c "-").
    + destruct (scan_natural s) as [[u r'] | ].
      * destruct (float_tail r'); [discriminate | now intros [= <- <-]].
      * destruct (expect (chars_of "Infinity") s); discriminate.
    + destruct (scan_natural (c :: s)) as [[u r'] | ]; [ | discriminate].
      destruct (float_tail r'); [discriminate | now intros [= <- <-]].
  - intros s l r. cbn [scan_elements].
    destruct (scan_value fuel s) as [v r1 | | ] eqn:Ev; try discriminate.
    destruct (skip_ws r1) as [ | c r2]; [discriminate | ].
    destruct (Ascii.eqb c ",").
    + destruct (scan_elements fuel (skip_ws r2)) as [l' r3 | | ] eqn:El;
        try discriminate.
      intros [= <- <-]. cbn [forallb].
      now rewrite (IHv _ _ _ Ev), (IHl _ _ _ El).
    + destruct (Ascii.eqb c "]"); [ | discriminate].
      intros [= <- <-]. cbn [forallb]. now rewrite (IHv _ _ _ Ev).
  - intros s d r. cbn [scan_members].
    destruct (expect [dquote] s) as [r0 | ]; [ | discriminate].
    destruct (scan_string r0) as [k r1 | | ]; try discriminate.
    destruct (expect [":"%char] (skip_ws r1)) as [r2 | ]; [ | discriminate].
    destruct (scan_value fuel (skip_ws r2)) as [v r3 | | ] eqn:Ev;
      try discriminate.
    destruct (skip_ws r3) as [ | c r4]; [discriminate | ].
    destruct (Ascii.eqb c ",").
    + destruct (scan_members fuel (skip_ws r4)) as [d' r5 | | ] eqn:Ed;
        try discriminate.
      intros [= <- <-]. cbn [forallb snd].
      now rewrite (IHv _ _ _ Ev), (IHd _ _ _ Ed).
    + destruct (Ascii.eqb c "}"); [ | discriminate].
      intros [= <- <-]. cbn [forallb snd]. now rewrite (IHv _ _ _ Ev).
Qed.

(** [json.loads] returns an object. *)
Lemma loads_well_formed (text : string) (v : value) :
  loads text = Parsed v -> Py.well_formed v = true.
Proof.
  unfold loads.
  destruct (scan_value (S (List.length (chars_of text))) (skip_ws (chars_of text)))
    as [x r | | ] eqn:E; try discriminate.
  destruct (skip_ws r); [ | discriminate].
  intros [= <-]. now apply (proj1 (scan_well_formed _) _ _ _ E).
Qed.
(** ** The program *)

(** ** Strings *)

Lemma prefix_spec (p s : string) :
  Py.prefix p s = true <-> exists after, s = (p ++ after)%string.
Proof.
  revert s. induction p as [ | a p IH]; intros s; cbn [Py.prefix].
  - split; [intros _; now exists s | reflexivity].
  - destruct s as [ | b s].
    + split; [discriminate | intros (after & E); discriminate E].
    + rewrite andb_true_iff, Ascii.eqb_eq, IH. split.
      * intros (-> & after & ->). now exists after.
      * intros (after & E). cbn in E. injection E as -> ->. eauto.
Qed.

(** [q in s] holds exactly when [q] occurs in [s]. *)
Lemma contains_spec (q s : string) :
  Py.contains q s = true <-> occurs_in q s.
Proof.
  unfold occurs_in. induction s as [ | c s IH]; cbn [Py.contains].
  - rewrite orb_false_r, prefix_spec. split.
    + intros (after & E). now exists EmptyString, after.
    + intros ([ | b before] & after & E); [now exists after | discriminate E].
  - rewrite orb_true_iff, prefix_spec, IH. split.
    + intros [(after & E) | (before & after & E)].
      * now exists EmptyString, after.
      * exists (String c before), after. cbn. now rewrite E.
    + intros ([ | b before] & after & E).
      * left. now exists after.
      * right. cbn in E. injection E as _ E. now exists before, after.
Qed.

Lemma contains_empty (s : string) : Py.contains EmptyString s = true.
Proof. destruct s; reflexivity. Qed.

(** ** Lists *)


(** ** Reading the two files *)

(** Unfold the operations on the world and evaluate, leaving the codec
    alone. *)
Ltac run :=
  unfold load_apps_cache, load_history, append_history, save_apps_cache,
    bind, path_exists, try_except, open_read, json_load, open_write_dump,
    lift, ret, raise, read_file, write_file;
  cbn -[Json.loads Json.dumps firstn].

Lemma load_apps_cache_eq (w : World) :
  load_apps_cache w = (read_json VNone (apps_cache w), w).
Proof.
  unfold read_json.
  destruct w as [[[ | | [s | ]] [ | ] wr] log net]; run; try reflexivity.
  destruct (Json.loads s); reflexivity.
Qed.

Lemma load_history_eq (w : World) :
  load_history w = (read_json (VList []) (search_history w), w).
Proof.
  unfold read_json.
  destruct w as [cache [[ | | [s | ]] [ | ] wr] net]; run; try reflexivity.
  destruct (Json.loads s); reflexivity.
Qed.

Lemma load_history_stored (w : World) (l : list value) :
  stored_history w = Some l -> load_history w = (Ok (VList l), w).
Proof.
  rewrite load_history_eq. unfold stored_history, read_json, read_file.
  destruct (search_history w) as [[ | | [s | ]] [ | ] [ | ]];
    cbn [node readable writable]; try discriminate; try (now intros [= <-]).
  destruct (Json.loads s) as [[ | | | | l' | ] | | ]; try discriminate;
    now intros [= <-].
Qed.

(** ** Appending to the history *)

Lemma append_history_eq (e : value) (w : World) (prev : list value) :
  stored_history w = Some prev ->
  append_history e w
  = (Ok tt, set_file HISTORY_FILE (Text (history_text (e :: firstn 99 prev))) w).
Proof.
  unfold stored_history.
  destruct w as [cache [[ | | [s | ]] [ | ] [ | ]] net]; run;
    try discriminate; try (now intros [= <-]).
  destruct (Json.loads s) as [[ | | | | l' | ] | | ]; try discriminate;
    now intros [= <-].
Qed.

(** On a log that holds a JSON text other than a list, [append_history]
    raises and writes nothing. *)
Lemma append_history_not_list (e : value) (w : World) (s : string) (v : value) :
  read_file (search_history w) = Ok s ->
  Json.loads s = Json.Parsed v ->
  match v with VList _ => False | _ => True end ->
  append_history e w = (Raise AttributeError, w).
Proof.
  unfold read_file.
  destruct w as [cache [[ | | [s' | ]] [ | ] wr] net];
    cbn [search_history node readable]; try discriminate.
  intros [= ->] Hloads Hshape. run. rewrite Hloads.
  destruct v; try contradiction; reflexivity.
Qed.

Lemma stored_history_written (l : list value) (w : World) :
  forallb Py.well_formed l = true ->
  stored_history (set_file HISTORY_FILE (Text (history_text l)) w) = Some l.
Proof.
  intros Hl. unfold stored_history, history_text.
  cbn [set_file search_history Text node readable writable].
  now rewrite loads_dumps.
Qed.

(** The entries of a stored history are objects. *)
Lemma stored_history_well_formed (w : World) (l : list value) :
  stored_history w = Some l -> forallb Py.well_formed l = true.
Proof.
  unfold stored_history.
  destruct (search_history w) as [[ | | [s | ]] [ | ] [ | ]];
    cbn [node readable writable]; try discriminate; try (now intros [= <-]).
  destruct (Json.loads s) as [[ | | | | l' | ] | | ] eqn:E; try discriminate;
    intros [= <-]; [ | reflexivity].
  exact (loads_well_formed s (VList l') E).
Qed.

Lemma forallb_firstn (A : Type) (f : A -> bool) (n : nat) (l : list A) :
  forallb f l = true -> forallb f (firstn n l) = true.
Proof.
  revert n. induction l as [ | x l IH]; intros [ | n]; try reflexivity.
  cbn [forallb firstn]. intros H. apply andb_true_iff in H.
  destruct H as [Hx Hl]. now rewrite Hx, IH.
Qed.



(** ** The search loop on a catalog *)

Lemma search_loop_catalog (query : string) (limit : Z) (C : list CatalogEntry) :
  forall acc : list CatalogEntry,
    (Z.of_nat (List.length acc) < limit)%Z ->
    search_loop (Py.lower query) limit (map entry_value C) (map entry_value acc)
    = Ok (map entry_value
            (acc ++ firstn (Z.to_nat limit - List.length acc)
                      (filter (name_matches query) C))).
Proof.
  induction C as [ | e C IH]; intros acc Hacc.
  - cbn [map filter search_loop]. now rewrite firstn_nil, List.app_nil_r.
  - cbn [map filter search_loop].
    change (Py.get (entry_value e) "name" (VStr ""))
      with (@Ok value (VStr (name e))).
    cbn [Py.lower_method].
    fold (name_matches query e).
    destruct (name_matches query e).
    + assert (Hm : (map entry_value acc ++ [entry_value e])
                   = map entry_value (acc ++ [e]))
        by now rewrite map_app.
      rewrite Hm, length_map, length_app. cbn [List.length].
      destruct (Z.of_nat (List.length acc + 1) >=? limit)%Z eqn:Hfull.
      * apply Z.geb_le in Hfull.
        replace (Z.to_nat limit - List.length acc) with 1 by lia.
        reflexivity.
      * rewrite Z.geb_leb in Hfull. apply Z.leb_gt in Hfull.
        rewrite IH by (rewrite length_app; cbn [List.length]; lia).
        rewrite length_app. cbn [List.length].
        replace (Z.to_nat limit - List.length acc)
          with (S (Z.to_nat limit - (List.length acc + 1))) by lia.
        cbn [firstn]. now rewrite <- List.app_assoc.
    + now apply IH.
Qed.

(** What [search_apps] returns on a catalog, for a limit of one at least. *)
Lemma search_apps_catalog (query : string) (limit : Z) (C : list CatalogEntry)
    (w w' : World) :
  (1 <= limit)%Z ->
  get_all_apps w = (Ok (catalog_value C), w') ->
  search_apps query limit w
  = (Ok (catalog_value (firstn (Z.to_nat limit) (filter (name_matches query) C))),
     w').
Proof.
  intros Hlimit Hget. unfold search_apps, bind at 1. rewrite Hget.
  unfold bind, lift, ret. cbn [Py.iter catalog_value].
  pose proof (search_loop_catalog query limit C []) as Hloop.
  cbn [map List.length List.app] in Hloop.
  rewrite Hloop by lia. now rewrite Nat.sub_0_r.
Qed.

Lemma filter_all (A : Type) (f : A -> bool) (l : list A) :
  (forall x, f x = true) -> filter f l = l.
Proof.
  intros H. induction l as [ | x l IH]; [reflexivity | ].
  cbn [filter]. now rewrite H, IH.
Qed.

Lemma in_firstn (A : Type) (n : nat) (l : list A) (x : A) :
  In x (firstn n l) -> In x l.
Proof.
  intros H. rewrite <- (firstn_skipn n l). apply in_or_app. now left.
Qed.

(** C1, as stated, fails at limit 0. *)
Lemma search_apps_limit_zero :
  get_all_apps world0 = (Ok (catalog_value catalog0), world0)
  /\ search_apps "half" 0 world0
     = (Ok (catalog_value [ {| appid := 1; name := "Half-Life" |} ]), world0)
  /\ search_apps "half" 0 world0
     <> (Ok (catalog_value
               (firstn (Z.to_nat 0) (filter (name_matches "half") catalog0))),
         world0).
Proof.
  assert (H : search_apps "half" 0 world0
              = (Ok (catalog_value [ {| appid := 1; name := "Half-Life" |} ]),
                 world0))
    by (vm_compute; reflexivity).
  split; [vm_compute; reflexivity | split; [exact H | ]].
  rewrite H. cbn. discriminate.
Qed.

(** C1 (amended).  For every catalog [C] that [get_all_apps] returns, every
    query and every limit of one at least, [search_apps] returns the entries
    of [C] whose lower-cased name contains the lower-cased query, in the
    order of the catalog, cut after the first [limit] of them; every entry
    returned has the query in its name, case put aside, and there are at
    most [limit] of them. *)
Theorem search_apps_first_matches (query : string) (limit : Z)
    (C : list CatalogEntry) (w w' : World) :
  (1 <= limit)%Z ->
  get_all_apps w = (Ok (catalog_value C), w') ->
  exists found : list CatalogEntry,
    search_apps query limit w = (Ok (catalog_value found), w')
    /\ found = firstn (Z.to_nat limit) (filter (name_matches query) C)
    /\ Forall (fun e => occurs_in (Py.lower query) (Py.lower (name e))) found
    /\ (Z.of_nat (List.length found) <= limit)%Z.
Proof.
  intros Hlimit Hget.
  exists (firstn (Z.to_nat limit) (filter (name_matches query) C)).
  split; [now apply search_apps_catalog | split; [reflexivity | split]].
  - apply Forall_forall. intros e He.
    apply in_firstn in He.
    apply filter_In in He. destruct He as [_ He].
    now apply contains_spec.
  - rewrite length_firstn. lia.
Qed.

Lemma search_apps_first_matches_witness :
  (1 <= 10)%Z
  /\ get_all_apps world0 = (Ok (catalog_value catalog0), world0)
  /\ exists found : list CatalogEntry,
    search_apps "half" 10 world0 = (Ok (catalog_value found), world0)
    /\ found = firstn (Z.to_nat 10) (filter (name_matches "half") catalog0)
    /\ Forall (fun e => occurs_in (Py.lower "half") (Py.lower (name e))) found
    /\ (Z.of_nat (List.length found) <= 10)%Z.
Proof.
  assert (Hlimit : (1 <= 10)%Z) by lia.
  assert (Hget : get_all_apps world0 = (Ok (catalog_value catalog0), world0))
    by (vm_compute; reflexivity).
  split; [exact Hlimit | split; [exact Hget | ]].
  exact (search_apps_first_matches "half" 10 catalog0 world0 world0 Hlimit Hget).
Defined.


(** C9.  [search_apps] does not reject the empty query: for a limit above
    zero it returns the first [min limit (length C)] entries of the catalog,
    the empty string being in every name.  The rejection is in the route:
    on a POST whose query is blank once stripped, [index] goes straight to
    the page with the message, without a search and without a history
    entry. *)
Theorem search_apps_empty_query :
  (forall (limit : Z) (C : list CatalogEntry) (w w' : World),
      (0 < limit)%Z ->
      get_all_apps w = (Ok (catalog_value C), w') ->
      search_apps "" limit w
      = (Ok (catalog_value (firstn (Nat.min (Z.to_nat limit) (List.length C)) C)),
         w'))
  /\ (forall (req : Request) (w : World),
         method req = POST ->
         Py.strip (match game_name req with Some s => s | None => "" end) = "" ->
         index req w
         = render_index VNone "" (Some (Message "Please enter a game name.")) w).
Proof.
  split.
  - intros limit C w w' Hlimit Hget.
    rewrite (search_apps_catalog "" limit C w w' ltac:(lia) Hget).
    rewrite filter_all by (intros e; apply contains_empty).
    do 2 f_equal. f_equal.
    destruct (Nat.le_ge_cases (Z.to_nat limit) (List.length C)) as [H | H].
    + now rewrite Nat.min_l.
    + rewrite Nat.min_r by exact H. now rewrite !firstn_all2.
  - intros req w Hpost Hblank. unfold index. now rewrite Hpost, Hblank.
Qed.

Lemma search_apps_empty_query_witness :
  search_apps "" 2 world0
  = (Ok (catalog_value (firstn 2 catalog0)), world0)
  /\ index blank_post world0
     = (Ok (IndexHtml VNone "" (Some (Message "Please enter a game name."))
              (VList [])), world0).
Proof.
  destruct search_apps_empty_query as [Hsearch Hroute].
  split.
  - apply (Hsearch 2%Z catalog0 world0 world0); [lia | vm_compute; reflexivity].
  - rewrite (Hroute blank_post world0); reflexivity.
Defined.

(** ** History *)

Lemma unusable_read_json (fallback : value) (f : File) :
  unusable f -> read_json fallback f = Ok fallback.
Proof.
  unfold unusable, absent, unreadable, corrupt, read_json, read_file.
  destruct f as [[ | | [s | ]] [ | ] wr]; cbn [node readable];
    try reflexivity.
  intros [H | [[H | H] | (s' & [= <-] & H)]]; try discriminate.
  now rewrite H.
Qed.

Lemma read_json_parsed (fallback : value) (f : File) (s : string) (v : value) :
  read_file f = Ok s -> Json.loads s = Json.Parsed v -> read_json fallback f = Ok v.
Proof. unfold read_json. now intros -> ->. Qed.

Lemma read_json_never_raises (fallback : value) (f : File) (e : exn) :
  read_json fallback f <> Raise e.
Proof.
  unfold read_json.
  destruct (read_file f) as [s | e' | ]; try discriminate.
  destruct (Json.loads s); discriminate.
Qed.

Lemma append_history_stored (e : value) (w : World) (prev : list value) :
  Py.well_formed e = true ->
  stored_history w = Some prev ->
  exists w',
    append_history e w = (Ok tt, w')
    /\ stored_history w' = Some (e :: firstn 99 prev)
    /\ load_history w' = (Ok (VList (e :: firstn 99 prev)), w').
Proof.
  intros He Hw.
  assert (Hkept : forallb Py.well_formed (e :: firstn 99 prev) = true).
  { cbn [forallb]. rewrite He. cbn [andb].
    apply forallb_firstn. now apply (stored_history_well_formed w). }
  exists (set_file HISTORY_FILE (Text (history_text (e :: firstn 99 prev))) w).
  split; [now apply append_history_eq | ].
  split; [now apply stored_history_written | ].
  now apply load_history_stored, stored_history_written.
Qed.







(** C8.  [load_history] never raises and leaves the files as they are.  It
    returns the empty list when the log file is absent, unreadable or
    corrupt, and the object the file holds when its text is JSON.  On a log
    that holds a list it returns that list in the order it is stored, which
    is newest first: after [append_history e], for an object [e], it returns
    [e], then the entries it returned before. *)
Theorem load_history_fails_open (w : World) :
  (forall x : exn, fst (load_history w) <> Raise x)
  /\ snd (load_history w) = w
  /\ (unusable (search_history w) -> load_history w = (Ok (VList []), w))
  /\ (forall (s : string) (persisted : value),
         read_file (search_history w) = Ok s ->
         Json.loads s = Json.Parsed persisted ->
         load_history w = (Ok persisted, w))
  /\ (forall prev : list value,
         stored_history w = Some prev ->
         load_history w = (Ok (VList prev), w)
         /\ forall e : value,
              Py.well_formed e = true ->
              fst (load_history (snd (append_history e w)))
              = Ok (VList (e :: firstn 99 prev))).
Proof.
  rewrite load_history_eq. cbn [fst snd].
  split; [intros x; apply read_json_never_raises | ].
  split; [reflexivity | ].
  split; [intros H; now rewrite unusable_read_json | ].
  split.
  - intros s persisted Hread Hloads.
    now rewrite (read_json_parsed _ _ s persisted Hread Hloads).
  - intros prev Hw.
    rewrite <- load_history_eq.
    split; [now apply load_history_stored | ].
    intros e He.
    destruct (append_history_stored e w prev He Hw) as (w' & Hrun & _ & Hload).
    rewrite Hrun. cbn [snd]. now rewrite Hload.
Qed.

Lemma load_history_fails_open_witness :
  let e := search_event "portal" 1 in
  let gone := world_of NoFile NoFile offline in
  let folder := world_of NoFile Folder offline in
  let binary := world_of NoFile Binary offline in
  let broken := world_of NoFile (Text "[1, 2") offline in
  let kept := world_of NoFile (Text (history_text (log_of 3))) offline in
  load_history gone = (Ok (VList []), gone)
  /\ load_history folder = (Ok (VList []), folder)
  /\ load_history binary = (Ok (VList []), binary)
  /\ load_history broken = (Ok (VList []), broken)
  /\ load_history kept = (Ok (VList (log_of 3)), kept)
  /\ fst (load_history (snd (append_history e kept))) = Ok (VList (e :: log_of 3)).
Proof.
  cbv zeta.
  assert (Hgone : unusable (search_history (world_of NoFile NoFile offline)))
    by (left; reflexivity).
  assert (Hfolder : unusable (search_history (world_of NoFile Folder offline)))
    by (right; left; exact I).
  assert (Hbinary : unusable (search_history (world_of NoFile Binary offline)))
    by (right; left; right; reflexivity).
  assert (Hbroken : unusable (search_history
                                (world_of NoFile (Text "[1, 2") offline)))
    by (right; right; exists "[1, 2"; split; vm_compute; reflexivity).
  assert (Hkept : stored_history
                    (world_of NoFile (Text (history_text (log_of 3))) offline)
                  = Some (log_of 3))
    by (vm_compute; reflexivity).
  split; [exact (proj1 (proj2 (proj2 (load_history_fails_open _))) Hgone) | ].
  split; [exact (proj1 (proj2 (proj2 (load_history_fails_open _))) Hfolder) | ].
  split; [exact (proj1 (proj2 (proj2 (load_history_fails_open _))) Hbinary) | ].
  split; [exact (proj1 (proj2 (proj2 (load_history_fails_open _))) Hbroken) | ].
  destruct (proj2 (proj2 (proj2 (proj2 (load_history_fails_open _))))
              (log_of 3) Hkept) as [Hload Hnew].
  split; [exact Hload | ].
  exact (Hnew (search_event "portal" 1) eq_refl).
Defined.

(** ** The catalog cache *)

Lemma load_apps_cache_unusable (w : World) :
  cache_unusable w -> load_apps_cache w = (Ok VNone, w).
Proof.
  intros H. rewrite load_apps_cache_eq. now rewrite unusable_read_json.
Qed.

Lemma load_apps_cache_null (w : World) :
  holds_null (apps_cache w) -> load_apps_cache w = (Ok VNone, w).
Proof.
  intros (s & Hread & Hloads). rewrite load_apps_cache_eq.
  now rewrite (read_json_parsed _ _ s VNone Hread Hloads).
Qed.

(** Opening for writing succeeds where [opens_for_writing] says so, and
    the file then holds the text written. *)
Lemma write_file_opens (text : string) (f : File) :
  opens_for_writing f = true ->
  exists f',
    write_file text f = Ok f'
    /\ node f' = Regular (Some text)
    /\ writable f' = true
    /\ (cache_accessible_file f -> readable f' = true).
Proof.
  unfold opens_for_writing, write_file, cache_accessible_file.
  destruct f as [[ | | bytes] rd wr]; cbn [node readable writable];
    try discriminate; intros ->; eexists; (split; [reflexivity | ]);
    cbn [Text node readable writable]; repeat split; tauto.
Qed.

Lemma write_file_refused (text : string) (f : File) :
  opens_for_writing f = false -> write_file text f = Raise OSError.
Proof.
  unfold opens_for_writing, write_file.
  destruct f as [[ | | bytes] rd wr]; cbn [node writable];
    intros H; try rewrite H; reflexivity.
Qed.

Lemma save_apps_cache_eq (data : value) (w : World) (f : File) :
  write_file (cache_text data) (apps_cache w) = Ok f ->
  save_apps_cache data w = (Ok tt, set_file APPS_CACHE f w).
Proof.
  intros H. unfold save_apps_cache, open_write_dump. cbn [file_at].
  fold (cache_text data). now rewrite H.
Qed.

Lemma fetch_and_cache_apps_eq (w : World) (r : Response) (j applist data : value)
    (f : File) :
  remote w STEAM_APP_LIST_URL [] = Reply r ->
  (status_code r < 400 \/ 600 <= status_code r)%Z ->
  Json.loads (body r) = Json.Parsed j ->
  Py.get j "applist" (VDict []) = Ok applist ->
  Py.get applist "apps" (VList []) = Ok data ->
  write_file (cache_text data) (apps_cache w) = Ok f ->
  fetch_and_cache_apps w = (Ok data, set_file APPS_CACHE f w).
Proof.
  intros Hremote Hstatus Hbody Happlist Hdata Hwrite.
  unfold fetch_and_cache_apps, bind at 1, requests_get. rewrite Hremote.
  unfold bind at 1, raise_for_status.
  replace ((400 <=? status_code r)%Z && (status_code r <? 600)%Z) with false
    by (symmetry; apply andb_false_iff; lia).
  unfold ret at 1, bind at 1, response_json, json_load. rewrite Hbody.
  unfold bind at 1, lift at 1. rewrite Happlist.
  unfold bind at 1, lift at 1. rewrite Hdata.
  unfold bind at 1. now rewrite (save_apps_cache_eq data w f Hwrite).
Qed.

Lemma write_file_written (text : string) (f f' : File) :
  write_file text f = Ok f' -> node f' = Regular (Some text).
Proof.
  unfold write_file.
  destruct f as [[ | | bytes] rd [ | ]]; cbn [node readable writable];
    try discriminate; now intros [= <-].
Qed.

Lemma save_apps_cache_inv (data : value) (w w' : World) :
  save_apps_cache data w = (Ok tt, w') ->
  exists f,
    write_file (cache_text data) (apps_cache w) = Ok f
    /\ w' = set_file APPS_CACHE f w.
Proof.
  unfold save_apps_cache, open_write_dump. cbn [file_at].
  fold (cache_text data).
  destruct (write_file (cache_text data) (apps_cache w)) as [f | e | ];
    try discriminate.
  intros [= <-]. now exists f.
Qed.

(** A catalog is an object. *)
Lemma catalog_well_formed (C : list CatalogEntry) :
  Py.well_formed (catalog_value C) = true.
Proof.
  unfold catalog_value. cbn [Py.well_formed].
  induction C as [ | e C IH]; [reflexivity | ].
  cbn [map forallb]. now rewrite IH.
Qed.

(** C7.  Whenever [save_apps_cache data] succeeds, for an object [data],
    the cache file holds a text that decodes to [data], and
    [load_apps_cache] returns [data] when the process may read the file.
    On a cache path the process can write and read back (no file yet in a
    directory it may write to, or a file it may read and write),
    [save_apps_cache data] does succeed and [load_apps_cache] after it
    returns [data]; so it is for every sequence of catalog entries. *)
Theorem save_load_apps_cache :
  (forall (data : value) (w : World),
      Py.well_formed data = true ->
      cache_accessible w ->
      fst (save_apps_cache data w) = Ok tt
      /\ load_apps_cache (snd (save_apps_cache data w))
         = (Ok data, snd (save_apps_cache data w)))
  /\ (forall (C : list CatalogEntry) (w : World),
         cache_accessible w ->
         fst (load_apps_cache (snd (save_apps_cache (catalog_value C) w)))
         = Ok (catalog_value C))
  /\ (forall (data : value) (w w' : World),
         Py.well_formed data = true ->
         save_apps_cache data w = (Ok tt, w') ->
         node (apps_cache w') = Regular (Some (cache_text data))
         /\ Json.loads (cache_text data) = Json.Parsed data
         /\ (readable (apps_cache w') = true ->
             load_apps_cache w' = (Ok data, w'))).
Proof.
  assert (Hinv : forall data w w',
             Py.well_formed data = true ->
             save_apps_cache data w = (Ok tt, w') ->
             node (apps_cache w') = Regular (Some (cache_text data))
             /\ Json.loads (cache_text data) = Json.Parsed data
             /\ (readable (apps_cache w') = true ->
                 load_apps_cache w' = (Ok data, w'))).
  { intros data w w' Hwf Hsave.
    destruct (save_apps_cache_inv data w w' Hsave) as (f & Hwrite & ->).
    pose proof (write_file_written _ _ _ Hwrite) as Hnode.
    cbn [set_file apps_cache].
    split; [exact Hnode | split; [now apply loads_dumps | ]].
    intros Hread. rewrite load_apps_cache_eq. cbn [set_file apps_cache].
    rewrite (read_json_parsed VNone f (cache_text data) data); [reflexivity | | ].
    - unfold read_file. now rewrite Hnode, Hread.
    - now apply loads_dumps. }
  assert (H : forall data w,
             Py.well_formed data = true ->
             cache_accessible w ->
             fst (save_apps_cache data w) = Ok tt
             /\ load_apps_cache (snd (save_apps_cache data w))
                = (Ok data, snd (save_apps_cache data w))).
  { intros data w Hwf Hacc.
    destruct (write_file_opens (cache_text data) (apps_cache w))
      as (f & Hwrite & Hnode & _ & Hread).
    { unfold cache_accessible, cache_accessible_file in Hacc.
      unfold opens_for_writing.
      destruct (node (apps_cache w)); tauto. }
    pose proof (save_apps_cache_eq data w f Hwrite) as Hsave.
    rewrite Hsave. cbn [fst snd].
    split; [reflexivity | ].
    apply (Hinv data w _ Hwf Hsave). cbn [set_file apps_cache]. now apply Hread. }
  split; [exact H | split; [ | exact Hinv]].
  intros C w Hacc.
  now rewrite (proj2 (H (catalog_value C) w (catalog_well_formed C) Hacc)).
Qed.

Lemma save_load_apps_cache_witness :
  let fresh := world_of NoFile NoFile offline in
  let stale := world_of (Text "{ broken") NoFile offline in
  cache_accessible fresh
  /\ cache_accessible stale
  /\ fst (save_apps_cache (catalog_value catalog0) fresh) = Ok tt
  /\ fst (load_apps_cache (snd (save_apps_cache (catalog_value catalog0) fresh)))
     = Ok (catalog_value catalog0)
  /\ fst (load_apps_cache (snd (save_apps_cache (catalog_value catalog0) stale)))
     = Ok (catalog_value catalog0).
Proof.
  cbv zeta.
  assert (Hfresh : cache_accessible (world_of NoFile NoFile offline))
    by (split; [reflexivity | exact I]).
  assert (Hstale : cache_accessible (world_of (Text "{ broken") NoFile offline))
    by (split; reflexivity).
  split; [exact Hfresh | split; [exact Hstale | ]].
  split; [exact (proj1 (proj1 save_load_apps_cache _ _
                              (catalog_well_formed catalog0) Hfresh)) | ].
  split; [exact (proj1 (proj2 save_load_apps_cache) catalog0 _ Hfresh) | ].
  exact (proj1 (proj2 save_load_apps_cache) catalog0 _ Hstale).
Defined.

(** C6, as stated, fails on a cache file that holds [null]: the file is
    there and parses, and [get_all_apps] fetches the list and overwrites the
    file where it should return what the file holds. *)
Lemma get_all_apps_null_cache :
  let w := null_cache_world in
  read_file (apps_cache w) = Ok "null"
  /\ Json.loads "null" = Json.Parsed VNone
  /\ ~ cache_unusable w
  /\ fst (get_all_apps w) = Ok (catalog_value catalog0)
  /\ fst (get_all_apps w) <> Ok VNone
  /\ apps_cache (snd (get_all_apps w)) = Text (cache_text (catalog_value catalog0))
  /\ snd (get_all_apps w) <> w.
Proof.
  cbv zeta.
  assert (Hrun : get_all_apps null_cache_world
                 = (Ok (catalog_value catalog0),
                    set_file APPS_CACHE
                      (Text (cache_text (catalog_value catalog0)))
                      null_cache_world))
    by (vm_compute; reflexivity).
  rewrite Hrun. cbn [fst snd].
  split; [reflexivity | ].
  split; [vm_compute; reflexivity | ].
  split.
  { intros [H | [[H | H] | (s & [= <-] & H)]]; discriminate. }
  repeat split; discriminate.
Qed.

(** C6 (amended).  [get_all_apps] returns what the cache file holds when
    the file can be read and parses to something other than [null], and
    leaves the world as it is.  When the file is absent, unreadable or
    corrupt, or holds [null], loading it gives [None] without raising;
    [get_all_apps] then fetches the list from the catalog endpoint and,
    when the cache path can be opened for writing, writes it to the cache
    file and returns it.  When the path cannot be opened for writing, the
    fetched list is lost and the error is raised. *)
Theorem get_all_apps_load_or_fetch :
  (forall (w : World) (s : string) (cached : value),
      read_file (apps_cache w) = Ok s ->
      Json.loads s = Json.Parsed cached ->
      cached <> VNone ->
      get_all_apps w = (Ok cached, w))
  /\ (forall (w : World) (r : Response) (j applist data : value),
         cache_unusable w \/ holds_null (apps_cache w) ->
         remote w STEAM_APP_LIST_URL [] = Reply r ->
         (status_code r < 400 \/ 600 <= status_code r)%Z ->
         Json.loads (body r) = Json.Parsed j ->
         Py.get j "applist" (VDict []) = Ok applist ->
         Py.get applist "apps" (VList []) = Ok data ->
         load_apps_cache w = (Ok VNone, w)
         /\ (opens_for_writing (apps_cache w) = true ->
             exists w',
               get_all_apps w = (Ok data, w')
               /\ node (apps_cache w') = Regular (Some (cache_text data))
               /\ Json.loads (cache_text data) = Json.Parsed data
               /\ search_history w' = search_history w)
         /\ (opens_for_writing (apps_cache w) = false ->
             get_all_apps w = (Raise OSError, w))).
Proof.
  split.
  - intros w s cached Hread Hloads Hsome.
    unfold get_all_apps, bind. rewrite load_apps_cache_eq.
    rewrite (read_json_parsed VNone _ s cached Hread Hloads).
    destruct cached; try reflexivity. contradiction.
  - intros w r j applist data Hbad Hremote Hstatus Hbody Happlist Hdata.
    assert (Hload : load_apps_cache w = (Ok VNone, w))
      by (destruct Hbad;
          [now apply load_apps_cache_unusable | now apply load_apps_cache_null]).
    split; [exact Hload | split].
    + intros Hopen.
      destruct (write_file_opens (cache_text data) (apps_cache w) Hopen)
        as (f & Hwrite & Hnode & _).
      assert (Hwf : Py.well_formed data = true).
      { apply (get_well_formed applist "apps" (VList []) data);
          [ | reflexivity | exact Hdata].
        apply (get_well_formed j "applist" (VDict []) applist);
          [ | reflexivity | exact Happlist].
        exact (loads_well_formed (body r) j Hbody). }
      exists (set_file APPS_CACHE f w).
      split; [ | split; [exact Hnode
                        | split; [now apply loads_dumps | reflexivity]]].
      unfold get_all_apps, bind. rewrite Hload.
      now apply (fetch_and_cache_apps_eq w r j applist data f).
    + intros Hshut.
      unfold get_all_apps, bind at 1. rewrite Hload.
      unfold fetch_and_cache_apps, bind at 1, requests_get. rewrite Hremote.
      unfold bind at 1, raise_for_status.
      replace ((400 <=? status_code r)%Z && (status_code r <? 600)%Z) with false
        by (symmetry; apply andb_false_iff; lia).
      unfold ret at 1, bind at 1, response_json, json_load. rewrite Hbody.
      unfold bind at 1, lift at 1. rewrite Happlist.
      unfold bind at 1, lift at 1. rewrite Hdata.
      unfold bind at 1, save_apps_cache, open_write_dump. cbn [file_at].
      now rewrite (write_file_refused _ _ Hshut).
Qed.

Lemma get_all_apps_load_or_fetch_witness :
  get_all_apps world0 = (Ok (catalog_value catalog0), world0)
  /\ (let w := world_of (Text "{ broken") NoFile applist_reply in
      load_apps_cache w = (Ok VNone, w)
      /\ exists w',
           get_all_apps w = (Ok (catalog_value catalog0), w')
           /\ node (apps_cache w')
              = Regular (Some (cache_text (catalog_value catalog0)))
           /\ Json.loads (cache_text (catalog_value catalog0))
              = Json.Parsed (catalog_value catalog0)
           /\ search_history w' = search_history w)
  /\ (let w := world_of Folder NoFile applist_reply in
      get_all_apps w = (Raise OSError, w)).
Proof.
  cbv zeta.
  assert (Hbroken : cache_unusable (world_of (Text "{ broken") NoFile applist_reply)
                    \/ holds_null (apps_cache
                                     (world_of (Text "{ broken") NoFile applist_reply)))
    by (left; right; right; exists "{ broken"; split; vm_compute; reflexivity).
  assert (Hfolder : cache_unusable (world_of Folder NoFile applist_reply)
                    \/ holds_null (apps_cache (world_of Folder NoFile applist_reply)))
    by (left; right; left; exact I).
  assert (Hbody : Json.loads
                    (Json.dumps true None
                       (VDict [("applist", VDict [("apps", catalog_value catalog0)])]))
                  = Json.Parsed
                      (VDict [("applist", VDict [("apps", catalog_value catalog0)])]))
    by (vm_compute; reflexivity).
  assert (Hstatus : (200 < 400 \/ 600 <= 200)%Z) by lia.
  split; [ | split].
  - apply (proj1 get_all_apps_load_or_fetch world0
             (cache_text (catalog_value catalog0)) (catalog_value catalog0)).
    + reflexivity.
    + vm_compute; reflexivity.
    + discriminate.
  - destruct (proj2 get_all_apps_load_or_fetch
                (world_of (Text "{ broken") NoFile applist_reply)
                {| status_code := 200;
                   body := Json.dumps true None
                             (VDict [("applist",
                                      VDict [("apps", catalog_value catalog0)])]) |}
                (VDict [("applist", VDict [("apps", catalog_value catalog0)])])
                (VDict [("apps", catalog_value catalog0)])
                (catalog_value catalog0)
                Hbroken eq_refl Hstatus Hbody eq_refl eq_refl)
      as (Hload & Hopen & _).
    split; [exact Hload | exact (Hopen eq_refl)].
  - destruct (proj2 get_all_apps_load_or_fetch
                (world_of Folder NoFile applist_reply)
                {| status_code := 200;
                   body := Json.dumps true None
                             (VDict [("applist",
                                      VDict [("apps", catalog_value catalog0)])]) |}
                (VDict [("applist", VDict [("apps", catalog_value catalog0)])])
                (VDict [("apps", catalog_value catalog0)])
                (catalog_value catalog0)
                Hfolder eq_refl Hstatus Hbody eq_refl eq_refl)
      as (_ & _ & Hshut).
    exact (Hshut eq_refl).
Defined.

(** ** The details fetcher *)







(** What [get_app_details] does on each outcome of the details request:
    [None] on a status other than 200 and on a success flag that is false;
    the exception of the request, raised to the caller, when the request
    itself fails. *)
Lemma get_app_details_absent :
  (forall (appid : Z) (w : World) (r : Response),
      remote w STEAM_APP_DETAILS_URL (details_params appid) = Reply r ->
      status_code r <> 200%Z ->
      get_app_details appid w = (Ok VNone, w))
  /\ (forall (appid : Z) (w : World) (r : Response)
             (j data : list (string * value)) (success : value),
         remote w STEAM_APP_DETAILS_URL (details_params appid) = Reply r ->
         status_code r = 200%Z ->
         Json.loads (body r) = Json.Parsed (VDict j) ->
         Py.lookup (Py.str_int appid) j = Some (VDict data) ->
         Py.lookup "success" data = Some success ->
         Py.truthy success = false ->
         get_app_details appid w = (Ok VNone, w))
  /\ (forall (appid : Z) (w : World) (e : exn),
         remote w STEAM_APP_DETAILS_URL (details_params appid) = Failure e ->
         get_app_details appid w = (Raise e, w)).
Proof.
  split; [ | split].
  - intros appid w r Hremote Hstatus.
    unfold get_app_details, bind at 1, requests_get. rewrite Hremote.
    apply Z.eqb_neq in Hstatus. now rewrite Hstatus.
  - intros appid w r j data success Hremote Hstatus Hbody Hkey Hflag Hfalse.
    unfold get_app_details, bind at 1, requests_get. rewrite Hremote, Hstatus.
    cbn [Z.eqb Pos.eqb negb].
    unfold bind at 1, response_json, json_load. rewrite Hbody.
    unfold ret at 1, bind at 1, lift at 1. cbn [Py.get]. rewrite Hkey.
    unfold bind at 1, lift at 1. cbn [Py.get]. rewrite Hflag, Hfalse.
    reflexivity.
  - intros appid w e Hremote.
    unfold get_app_details, bind at 1, requests_get. now rewrite Hremote.
Qed.

(** When [get_app_details] returns [None], [select] answers with its own
    message and status 500. *)
Lemma select_absent (req : Request) (appid : Z) (w w' : World) :
  get_app_details appid w = (Ok VNone, w') ->
  select req appid w
  = (Ok (Plain (Message "Could not fetch details for that app.") 500), w').
Proof. intros H. unfold select, bind. now rewrite H. Qed.

Lemma fetch_and_cache_apps_network_failure (w : World) (e : exn) :
  remote w STEAM_APP_LIST_URL [] = Failure e ->
  fetch_and_cache_apps w = (Raise e, w).
Proof.
  intros H. unfold fetch_and_cache_apps, bind at 1, requests_get. now rewrite H.
Qed.

(** The two other routes that call the remote catch what it raises:
    [refresh_cache] answers with the text of the exception and status 500,
    and [index] renders its page with the text as the error. *)
Lemma refresh_cache_network_failure (req : Request) (w : World) (e : exn) :
  remote w STEAM_APP_LIST_URL [] = Failure e ->
  refresh_cache req w = (Ok (Plain (StrOf e) 500), w).
Proof.
  intros H. unfold refresh_cache, try_except, bind at 1.
  now rewrite (fetch_and_cache_apps_network_failure w e H).
Qed.

Lemma index_network_failure (req : Request) (query : string) (w : World) (e : exn) :
  cache_unusable w ->
  remote w STEAM_APP_LIST_URL [] = Failure e ->
  index_search req query w = (Ok (VNone, Some (StrOf e)), w).
Proof.
  intros Hcache H.
  assert (Hget : get_all_apps w = (Raise e, w)).
  { unfold get_all_apps, bind. rewrite (load_apps_cache_unusable w Hcache).
    now apply fetch_and_cache_apps_network_failure. }
  assert (Hsearch : search_apps query 15 w = (Raise e, w))
    by (unfold search_apps, bind at 1; now rewrite Hget).
  unfold index_search, try_except, bind at 1. now rewrite Hsearch.
Qed.

(** C3.  When the details request itself fails (connection error,
    timeout), [get_app_details] does not return [None]: it raises the
    exception of the request; and [select], its caller, has no handler for
    it, so the exception leaves the route and no page is returned, where the
    specification asks for an absent result shown to the user as an
    error. *)
Theorem select_network_failure (req : Request) (appid : Z) (w : World) (e : exn) :
  remote w STEAM_APP_DETAILS_URL (details_params appid) = Failure e ->
  get_app_details appid w = (Raise e, w)
  /\ get_app_details appid w <> (Ok VNone, w)
  /\ select req appid w = (Raise e, w)
  /\ forall (page : Page) (w' : World), select req appid w <> (Ok page, w').
Proof.
  intros Hremote.
  assert (Hget : get_app_details appid w = (Raise e, w))
    by (unfold get_app_details, bind at 1, requests_get; now rewrite Hremote).
  assert (Hsel : select req appid w = (Raise e, w))
    by (unfold select, bind at 1; now rewrite Hget).
  rewrite Hget, Hsel. repeat split; discriminate.
Qed.

Lemma select_network_failure_witness :
  let w := world_of NoFile NoFile (Failure Timeout) in
  let req := {| method := GET; game_name := None; utcnow := "2024-01-01T00:00:00" |} in
  remote w STEAM_APP_DETAILS_URL (details_params 570) = Failure Timeout
  /\ get_app_details 570 w = (Raise Timeout, w)
  /\ get_app_details 570 w <> (Ok VNone, w)
  /\ select req 570 w = (Raise Timeout, w)
  /\ forall (page : Page) (w' : World), select req 570 w <> (Ok page, w').
Proof.
  cbv zeta.
  assert (H : remote (world_of NoFile NoFile (Failure Timeout))
                STEAM_APP_DETAILS_URL (details_params 570)
              = Failure Timeout) by reflexivity.
  split; [exact H | ].
  exact (select_network_failure _ 570%Z _ Timeout H).
Defined.

(** C4.  On a successful details response without header image and with a
    list of screenshots that is there but empty, the expression for
    [header_image] raises [IndexError], and [get_app_details] with it,
    where the specification asks for a result with the empty string. *)
Theorem get_app_details_empty_screenshots :
  let w := world_of NoFile NoFile
             (details_of [("name", VStr "Dota 2"); ("screenshots", VList [])]) in
  details_info 570 w = Some [("name", VStr "Dota 2"); ("screenshots", VList [])]
  /\ header_image_field (VDict [("name", VStr "Dota 2"); ("screenshots", VList [])]) w
     = (Raise IndexError, w)
  /\ get_app_details 570 w = (Raise IndexError, w).
Proof.
  cbv zeta. repeat split; vm_compute; reflexivity.
Qed.

(** The other shapes of the response give the field the specification
    states: the header image, else the full path of the first screenshot,
    else the empty string. *)
Lemma header_image_field_cases (w : World) (info : list (string * value)) :
  (forall image,
      Py.lookup "header_image" info = Some image -> Py.truthy image = true ->
      header_image_field (VDict info) w = (Ok image, w))
  /\ (forall shot shots path,
         Py.lookup "header_image" info = None ->
         Py.lookup "screenshots" info = Some (VList (VDict shot :: shots)) ->
         Py.lookup "path_full" shot = Some path -> Py.truthy path = true ->
         header_image_field (VDict info) w = (Ok path, w))
  /\ (Py.lookup "header_image" info = None ->
      Py.lookup "screenshots" info = None ->
      header_image_field (VDict info) w = (Ok (VStr ""), w))
  /\ (Py.lookup "header_image" info = None ->
      Py.lookup "screenshots" info = Some (VList []) ->
      header_image_field (VDict info) w = (Raise IndexError, w)).
Proof.
  unfold header_image_field, bind, lift, ret. cbn [Py.get].
  repeat split.
  - intros image -> ->. reflexivity.
  - intros shot shots path -> -> Hpath Htrue. cbn [Py.truthy Py.item0 Py.get].
    rewrite Hpath. unfold Py.or_. now rewrite Htrue.
  - intros -> ->. reflexivity.
  - intros -> ->. reflexivity.
Qed.

(** ** Scenarios of the specification *)

Example search_half :
  fst (search_apps "half" 10 world0)
  = Ok (catalog_value [ {| appid := 1; name := "Half-Life" |};
                        {| appid := 2; name := "Half-Life 2" |} ]).
Proof. vm_compute. reflexivity. Qed.

Example search_is_case_insensitive :
  fst (search_apps "PORTAL" 10 world0)
  = Ok (catalog_value [ {| appid := 3; name := "Portal" |} ]).
Proof. vm_compute. reflexivity. Qed.

Example details_without_success :
  fst (get_app_details 570
         (world_of NoFile NoFile
            (reply_json (VDict [("570", VDict [("success", VBool false)])]))))
  = Ok VNone.
Proof. vm_compute. reflexivity. Qed.

Example free_game_price :
  fst (price_field (VDict free_game) world0) = Ok (VStr "Free").
Proof. reflexivity. Qed.

(** The 101st entry pushes the oldest of a full log out. *)
Example hundred_and_first_drops_oldest :
  let w := world_of NoFile (Text (history_text (log_of 100))) offline in
  let e := search_event "portal" 1 in
  fst (load_history (snd (append_history e w)))
  = Ok (VList (e :: removelast (log_of 100))).
Proof. vm_compute. reflexivity. Qed.
